(** * Link and path resolution of the documentation site

    A shallow embedding of [src/app/docs/[[...slug]]/page.tsx]: the href
    candidate builder and resolver, the route classifier, the raw-source
    path generator with its probing loop, and the static parameter
    enumeration, followed by the properties the specification states
    about them.

    JavaScript strings are modelled as [string] (sequences of code units
    below 256), arrays as [list], an optional value as [option], a
    rejected promise or a thrown exception as the [Throw] outcome of a
    small log-passing monad. The external collaborators (the page
    index, the file system, [path.join], [path.dirname], the process
    working directory, the parsed API specification) are parameters. *)

From Stdlib Require Import String Ascii List Bool Arith Lia DecimalString.
Import ListNotations.
Open Scope string_scope.
Open Scope bool_scope.
Set Warnings "-register-all".

(** ** JavaScript primitives used by the page *)

Module JS.

(** [s.startsWith(p)] *)
Fixpoint startsWith (s p : string) {struct p} : bool :=
  match p with
  | EmptyString => true
  | String b p' =>
      match s with
      | EmptyString => false
      | String a s' => Ascii.eqb a b && startsWith s' p'
      end
  end.

(** [s.endsWith(suf)]: the last [String.length suf] code units of [s] are [suf]. *)
Definition endsWith (s suf : string) : bool :=
  (String.length suf <=? String.length s)%nat
  && String.eqb
       (substring (String.length s - String.length suf) (String.length suf) s)
       suf.

(** [s.slice(0, -n)] for a positive [n]: the end index is
    [max (String.length s - n) 0]. *)
Definition sliceEnd (s : string) (n : nat) : string :=
  substring 0 (String.length s - n) s.

(** [s.split(sep)] for a one-character separator: never the empty array. *)
Fixpoint split (sep : ascii) (s : string) : list string :=
  match s with
  | EmptyString => [EmptyString]
  | String c r =>
      if Ascii.eqb c sep then EmptyString :: split sep r
      else match split sep r with
           | h :: t => String c h :: t
           | [] => [String c EmptyString]
           end
  end.

(** [s.split(sep, limit)]: all the pieces are cut, then only the first
    [limit] of them are kept. *)
Definition splitLimit (sep : ascii) (limit : nat) (s : string) : list string :=
  firstn limit (split sep s).

(** Array destructuring [[a, b = ""] = arr]: [a] is [arr[0]] and [b] is
    [arr[1]], or the default when there is no such element. The arrays
    destructured here always hold element 0. *)
Definition destructure2 (arr : list string) : string * string :=
  (nth 0 arr EmptyString, nth 1 arr EmptyString).

(** [arr.join(sep)] *)
Definition join (sep : string) (arr : list string) : string :=
  String.concat sep arr.

(** [arr.includes(x)] on an array of strings *)
Definition includes (arr : list string) (x : string) : bool :=
  existsb (String.eqb x) arr.

(** [arr.some(p)] *)
Definition some {A : Type} (p : A -> bool) (arr : list A) : bool :=
  existsb p arr.

(** [arr.push(...items)], as the array it leaves *)
Definition push {A : Type} (arr items : list A) : list A :=
  List.app arr items.

(** [arr.slice(k)] *)
Definition sliceFrom {A : Type} (k : nat) (arr : list A) : list A :=
  skipn k arr.

(** Truthiness of a string: only the empty string is falsy. *)
Definition truthy (s : string) : bool :=
  match s with
  | EmptyString => false
  | String _ _ => true
  end.

Definition mapChars (f : ascii -> ascii) : string -> string :=
  fix go (s : string) : string :=
    match s with
    | EmptyString => EmptyString
    | String c r => String (f c) (go r)
    end.

(** Lower-casing of one code unit below 256: the Latin capital letters
    A-Z and the capitals of the upper half (192-222, the multiplication
    sign 215 apart) move up by 32. *)
Definition lowerChar (c : ascii) : ascii :=
  let n := nat_of_ascii c in
  if ((65 <=? n)%nat && (n <=? 90)%nat)
     || ((192 <=? n)%nat && (n <=? 222)%nat && negb (n =? 215)%nat)
  then ascii_of_nat (n + 32) else c.

(** [s.toLowerCase()] *)
Definition toLowerCase : string -> string := mapChars lowerChar.

(** [s.replace(/-/g, "_")] *)
Definition dashesToUnderscores : string -> string :=
  mapChars (fun c => if Ascii.eqb c "-"%char then "_"%char else c).

End JS.

(** ** Regular expressions

    The expressions of the page use literals, character classes,
    alternation, a star and the two anchors, so [test] decides language
    membership; it is computed with derivatives. *)

Module Regex.

Inductive re : Type :=
| Void
| Eps
| Cls (p : ascii -> bool)
| Seq (r1 r2 : re)
| Alt (r1 r2 : re)
| Star (r : re).

Fixpoint nullable (r : re) : bool :=
  match r with
  | Void => false
  | Eps => true
  | Cls _ => false
  | Seq r1 r2 => nullable r1 && nullable r2
  | Alt r1 r2 => nullable r1 || nullable r2
  | Star _ => true
  end.

Fixpoint deriv (c : ascii) (r : re) : re :=
  match r with
  | Void => Void
  | Eps => Void
  | Cls p => if p c then Eps else Void
  | Seq r1 r2 =>
      if nullable r1 then Alt (Seq (deriv c r1) r2) (deriv c r2)
      else Seq (deriv c r1) r2
  | Alt r1 r2 => Alt (deriv c r1) (deriv c r2)
  | Star r1 => Seq (deriv c r1) (Star r1)
  end.

Fixpoint matches (r : re) (s : string) : bool :=
  match s with
  | EmptyString => nullable r
  | String c s' => matches (deriv c r) s'
  end.

(** A literal word. *)
Fixpoint lit (w : string) : re :=
  match w with
  | EmptyString => Eps
  | String c w' => Seq (Cls (Ascii.eqb c)) (lit w')
  end.

(** A group of alternatives [(w1|w2|...)]. *)
Fixpoint oneOf (ws : list string) : re :=
  match ws with
  | [] => Void
  | w :: ws' => Alt (lit w) (oneOf ws')
  end.

Definition anyChars : re := Star (Cls (fun _ => true)).

(** A regular expression literal: [/^body/], [/body$/], [/body/]. *)
Record regexp : Type := mkRegexp {
  atStart : bool;
  body : re;
  atEnd : bool
}.

(** [re.test(s)]: some substring of [s] matches the body, at the start
    or up to the end of [s] when anchored. *)
Definition test (r : regexp) (s : string) : bool :=
  matches (Seq (if atStart r then Eps else anyChars)
               (Seq (body r) (if atEnd r then Eps else anyChars))) s.

(** The language of an expression. *)
Inductive lang : re -> string -> Prop :=
| LEps : lang Eps EmptyString
| LCls p c : p c = true -> lang (Cls p) (String c EmptyString)
| LSeq r1 r2 s1 s2 : lang r1 s1 -> lang r2 s2 -> lang (Seq r1 r2) (s1 ++ s2)
| LAltL r1 r2 s : lang r1 s -> lang (Alt r1 r2) s
| LAltR r1 r2 s : lang r2 s -> lang (Alt r1 r2) s
| LStarNil r : lang (Star r) EmptyString
| LStarCons r s1 s2 : lang r s1 -> lang (Star r) s2 -> lang (Star r) (s1 ++ s2).

End Regex.

(** ** The page index and the rendered page *)

(** A page of the index: its canonical [url], its file [path] and its
    [locale]. The index owns these values; the page only reads them. *)
Record PageData : Type := mkPage {
  url : string;
  path : string;
  locale : option string
}.

(** ** Href candidate builder and resolver *)

Module Href.

Definition isLetter (c : ascii) : bool :=
  let n := nat_of_ascii c in
  ((65 <=? n)%nat && (n <=? 90)%nat) || ((97 <=? n)%nat && (n <=? 122)%nat).

Definition isDigit (c : ascii) : bool :=
  let n := nat_of_ascii c in (48 <=? n)%nat && (n <=? 57)%nat.

(** The class [[a-z\d+.-]] under the [i] flag. *)
Definition isSchemeChar (c : ascii) : bool :=
  isLetter c || isDigit c
  || Ascii.eqb c "+"%char || Ascii.eqb c "."%char || Ascii.eqb c "-"%char.

(** [/^[a-z][a-z\d+.-]*:/i] *)
Definition schemePrefix : Regex.regexp :=
  Regex.mkRegexp true
    (Regex.Seq (Regex.Cls isLetter)
       (Regex.Seq (Regex.Star (Regex.Cls isSchemeChar))
          (Regex.Cls (Ascii.eqb ":"%char))))
    false.

(** The guard of [resolveInternalHref]: the href is not an internal
    relative link. *)
Definition isNotRelative (href : string) : bool :=
  JS.startsWith href "/" || JS.startsWith href "#"
  || Regex.test schemePrefix href.

(** [buildHrefCandidates]: the ordered list of href variants to resolve. *)
Definition buildHrefCandidates (path : string) : list string :=
  if JS.endsWith path ".md" then [path; JS.sliceEnd path 3 ++ ".mdx"]
  else if JS.endsWith path ".mdx" then [path]
  else if JS.endsWith path "/" then
    let noSlash := JS.sliceEnd path 1 in
    [noSlash ++ ".mdx"; path ++ "index.mdx"]
  else [path].

(** [const [withoutHash, hashPart = ""] = href.split("#", 2)] *)
Definition splitHash (href : string) : string * string :=
  JS.destructure2 (JS.splitLimit "#"%char 2 href).

(** [const [rawPath, queryPart = ""] = withoutHash.split("?", 2)] *)
Definition splitQuery (withoutHash : string) : string * string :=
  JS.destructure2 (JS.splitLimit "?"%char 2 withoutHash).

Definition suffixOf (queryPart hashPart : string) : string :=
  (if JS.truthy queryPart then "?" ++ queryPart else "")
  ++ (if JS.truthy hashPart then "#" ++ hashPart else "").

(** [foo] becomes [./foo]. *)
Definition explicitBase (rawPath : string) : string :=
  if JS.startsWith rawPath "./" || JS.startsWith rawPath "../"
  then rawPath else "./" ++ rawPath.

Section Resolver.

(** [source.getPageByHref(href, { dir, language })] *)
Variable getPageByHref : string -> string -> option string -> option PageData.
(** [path.dirname] *)
Variable dirname : string -> string.
(** The page being rendered. *)
Variable page : PageData.

(** The loop over the candidates: the first one the index knows gives
    the result, and the original href is kept when there is none. *)
Fixpoint resolveCandidates (candidates : list string) (suffix href : string)
  : string :=
  match candidates with
  | [] => href
  | candidate :: rest =>
      match getPageByHref candidate (dirname (path page)) (locale page) with
      | Some target => url target ++ suffix
      | None => resolveCandidates rest suffix href
      end
  end.

Definition resolveInternalHref (href : string) : string :=
  if isNotRelative href then href
  else
    let '(withoutHash, hashPart) := splitHash href in
    let '(rawPath, queryPart) := splitQuery withoutHash in
    let suffix := suffixOf queryPart hashPart in
    let base := explicitBase rawPath in
    resolveCandidates (buildHrefCandidates base) suffix href.

End Resolver.

End Href.

(** ** Route classifier *)

Module Classifier.

(** [/_(get|post|patch|delete|put)$/] *)
Definition httpVerbSuffix : Regex.regexp :=
  Regex.mkRegexp false
    (Regex.Seq (Regex.lit "_")
       (Regex.oneOf ["get"; "post"; "patch"; "delete"; "put"]))
    true.

(** [/^(predict|extract|generate|create|update|delete|retrieve|list|destroy|partial_update|stats)/] *)
Definition actionPrefix : Regex.regexp :=
  Regex.mkRegexp true
    (Regex.oneOf ["predict"; "extract"; "generate"; "create"; "update";
                  "delete"; "retrieve"; "list"; "destroy"; "partial_update";
                  "stats"])
    false.

(** [/_auth_|authentication/] *)
Definition authMarker : Regex.regexp :=
  Regex.mkRegexp false
    (Regex.Alt (Regex.lit "_auth_") (Regex.lit "authentication"))
    false.

(** [/knowledge_panel/] *)
Definition knowledgePanel : Regex.regexp :=
  Regex.mkRegexp false (Regex.lit "knowledge_panel") false.

(** [/_(create|update|delete|retrieve|list|destroy|partial_update|stats)$/] *)
Definition actionSuffix : Regex.regexp :=
  Regex.mkRegexp false
    (Regex.Seq (Regex.lit "_")
       (Regex.oneOf ["create"; "update"; "delete"; "retrieve"; "list";
                     "destroy"; "partial_update"; "stats"]))
    true.

(** The callback handed to [params.slug?.some]. *)
Definition isApiSegment (segment : string) : bool :=
  JS.startsWith segment "get-"
  || JS.startsWith segment "post-"
  || JS.startsWith segment "patch-"
  || JS.startsWith segment "delete-"
  || JS.startsWith segment "put-"
  || Regex.test httpVerbSuffix segment
  || Regex.test actionPrefix segment
  || Regex.test authMarker segment
  || Regex.test knowledgePanel segment
  || Regex.test actionSuffix segment.

(** The known API path patterns. *)
Definition isKnownApiPath (slug : list string) : bool :=
  (JS.includes slug "Product-Opener"
   && (JS.includes slug "v2" || JS.includes slug "v3"))
  || (JS.includes slug "Open-prices"
      && (JS.includes slug "prices"
          || JS.includes slug "auth"
          || JS.includes slug "users"
          || JS.includes slug "locations"
          || JS.includes slug "proofs"))
  || (JS.includes slug "Robotoff"
      && (JS.includes slug "predict"
          || JS.includes slug "annotation-management"
          || JS.includes slug "insight-management")).

(** [isApiPage]; an absent slug makes both operands undefined. *)
Definition isApiPage (slug : option (list string)) : bool :=
  match slug with
  | None => false
  | Some segments => JS.some isApiSegment segments || isKnownApiPath segments
  end.

(** [isReportPage]: a page under [Infra/reports]. *)
Definition isReportPage (slug : option (list string)) : bool :=
  match slug with
  | None => false
  | Some segments =>
      (3 <=? List.length segments)%nat
      && String.eqb (nth 0 segments "") "Infra"
      && String.eqb (nth 1 segments "") "reports"
  end.

End Classifier.

(** ** Effects: thrown errors and the log of file reads *)

Module IO.

Inductive error : Type :=
| NotFound                      (* [notFound()] of the framework *)
| ReadFailure (filePath : string)  (* a rejected [readFile] *)
| ParseFailure                  (* [parse] of the yaml package throws *)
| TypeError.                    (* a property read on [null] *)

Inductive outcome (A : Type) : Type :=
| Ok (a : A)
| Throw (e : error).
Arguments Ok {A} a.
Arguments Throw {A} e.

(** A computation threads the log of the paths handed to [readFile],
    oldest first. *)
Definition io (A : Type) : Type := list string -> outcome A * list string.

Definition ret {A : Type} (a : A) : io A := fun log => (Ok a, log).

Definition bind {A B : Type} (m : io A) (k : A -> io B) : io B :=
  fun log =>
    match m log with
    | (Ok a, log') => k a log'
    | (Throw e, log') => (Throw e, log')
    end.

Definition throw {A : Type} (e : error) : io A := fun log => (Throw e, log).

(** [try { m } catch { handler }] *)
Definition tryCatch {A : Type} (m : io A) (handler : error -> io A) : io A :=
  fun log =>
    match m log with
    | (Ok a, log') => (Ok a, log')
    | (Throw e, log') => handler e log'
    end.

Definition run {A : Type} (m : io A) : outcome A * list string := m [].

End IO.

Notation "x <- m ;; k" := (IO.bind m (fun x => k))
  (at level 61, m at next level, right associativity).

(** ** Raw-source lookup and the page component *)

Module Source.

(** What the component renders. *)
Inductive view (ReportPage : Type) : Type :=
| ReportBlogRenderer (reportPage : ReportPage) (markdownContent : string)
| DocsPage (page : PageData) (markdownContent : string).
Arguments ReportBlogRenderer {ReportPage} reportPage markdownContent.
Arguments DocsPage {ReportPage} page markdownContent.

Section Page.

(** [process.cwd()] *)
Variable cwd : string.
(** [path.join(...parts)] *)
Variable join : list string -> string.
(** The file system: the content of a readable file. *)
Variable fileContent : string -> option string.
(** [source.getPage(slug)] *)
Variable sourceGetPage : option (list string) -> option PageData.
(** [reportsSource.getPage(slug)] *)
Variable ReportPage : Type.
Variable reportsGetPage : list string -> option ReportPage.

(** [await readFile(filePath, "utf-8")] *)
Definition readFile (filePath : string) : IO.io string :=
  fun log =>
    (match fileContent filePath with
     | Some content => IO.Ok content
     | None => IO.Throw (IO.ReadFailure filePath)
     end, (log ++ [filePath])%list).

(** The loop [for (const filePath of possiblePaths) { try { markdownContent
    = await readFile(filePath); break; } catch { } }]. *)
Fixpoint readFirst (possiblePaths : list string) (markdownContent : string)
  : IO.io string :=
  match possiblePaths with
  | [] => IO.ret markdownContent
  | filePath :: rest =>
      IO.tryCatch (readFile filePath)
                  (fun _ => readFirst rest markdownContent)
  end.

(** [params.slug?.join("/") || "index"] *)
Definition slugPath (slug : option (list string)) : string :=
  match slug with
  | None => "index"
  | Some segments =>
      let joined := JS.join "/" segments in
      if JS.truthy joined then joined else "index"
  end.

(** [generatePaths(basePath)], a closure over [params.slug]. An element
    read past the end of the array would join as the empty string. *)
Definition generatePaths (slug : option (list string)) (basePath : string)
  : list string :=
  let paths :=
    [ join [cwd; "content/docs"; basePath ++ ".mdx"];
      join [cwd; "content/docs"; basePath; "index.mdx"] ] in
  match slug with
  | Some segments =>
      if (0 <? List.length segments)%nat then
        let paths :=
          if (1 <=? List.length segments)%nat then
            let pathWithDocs :=
              JS.join "/" (nth 0 segments "" :: "(docs)"
                           :: JS.sliceFrom 1 segments) in
            JS.push paths
              [ join [cwd; "content/docs"; pathWithDocs ++ ".mdx"];
                join [cwd; "content/docs"; pathWithDocs; "index.mdx"] ]
          else paths in
        if (2 <=? List.length segments)%nat then
          let pathWithDocs :=
            JS.join "/" (nth 0 segments "" :: nth 1 segments "" :: "(docs)"
                         :: JS.sliceFrom 2 segments) in
          JS.push paths
            [ join [cwd; "content/docs"; pathWithDocs ++ ".mdx"];
              join [cwd; "content/docs"; pathWithDocs; "index.mdx"] ]
        else paths
      else paths
  | None => paths
  end.

(** The candidate list of a regular docs page: the generated paths and,
    for the homepage, the root index. *)
Definition possiblePaths (slug : option (list string)) : list string :=
  let generated := generatePaths slug (slugPath slug) in
  let withRootIndex :=
    JS.push generated [ join [cwd; "content/docs"; "index.mdx"] ] in
  match slug with
  | None => withRootIndex
  | Some segments =>
      if (List.length segments =? 0)%nat then withRootIndex else generated
  end.

(** The candidate list of a report page. *)
Definition reportPaths (segments : list string) : list string :=
  let reportPath := JS.join "/" segments in
  [ join [cwd; "content/docs"; reportPath ++ ".mdx"];
    join [cwd; "content/docs"; reportPath; "index.mdx"] ].

(** The report branch: the page of the reports source, with the raw
    markdown of the report when a file can be read. *)
Definition renderReport (segments : list string) : IO.io (view ReportPage) :=
  let reportSlug := JS.sliceFrom 2 segments in
  match reportsGetPage reportSlug with
  | None => IO.throw IO.NotFound
  | Some reportPage =>
      markdownContent <- readFirst (reportPaths segments) "" ;;
      IO.ret (ReportBlogRenderer reportPage markdownContent)
  end.

(** The regular docs branch: the raw markdown is looked up unless the
    page is an API page. *)
Definition renderDocs (slug : option (list string)) : IO.io (view ReportPage) :=
  match sourceGetPage slug with
  | None => IO.throw IO.NotFound
  | Some page =>
      markdownContent <-
        (if negb (Classifier.isApiPage slug)
         then readFirst (possiblePaths slug) ""
         else IO.ret "") ;;
      IO.ret (DocsPage page markdownContent)
  end.

(** The page component, up to what it hands to the renderers. *)
Definition Page (slug : option (list string)) : IO.io (view ReportPage) :=
  match slug with
  | Some segments =>
      if Classifier.isReportPage slug then renderReport segments
      else renderDocs slug
  | None => renderDocs slug
  end.

End Page.

End Source.

(** ** Static parameters *)

Module Params.

(** A value as [parse] of the [yaml] package returns it. An object
    lists its own keys in the order [Object.keys] gives them; of a
    number only its truthiness is read here (a non-integer behaves as
    any non-zero number, NaN as zero). *)
Inductive value : Type :=
| VUndefined
| VNull
| VBool (b : bool)
| VNumber (n : nat)
| VString (s : string)
| VArray (items : list value)
| VObject (fields : list (string * value)).

(** The outcome of reading and parsing [ref/api.yaml]. *)
Inductive specFile : Type :=
| Unreadable               (* [readFile] rejects *)
| Unparseable              (* [parse] throws *)
| Parsed (apiSpec : value).

Fixpoint lookupField (key : string) (fields : list (string * value)) : value :=
  match fields with
  | [] => VUndefined
  | (k, v) :: rest => if String.eqb k key then v else lookupField key rest
  end.

(** [v.key] for the keys [components] and [schemas], which no prototype
    defines: a [TypeError] on [null] and [undefined], [undefined] on
    every value that is not an object holding the key. *)
Definition getProp (v : value) (key : string) : IO.outcome value :=
  match v with
  | VUndefined | VNull => IO.Throw IO.TypeError
  | VObject fields => IO.Ok (lookupField key fields)
  | _ => IO.Ok VUndefined
  end.

(** [v?.key] *)
Definition getPropOptional (v : value) (key : string) : IO.outcome value :=
  match v with
  | VUndefined | VNull => IO.Ok VUndefined
  | _ => getProp v key
  end.

Definition isTruthy (v : value) : bool :=
  match v with
  | VUndefined | VNull => false
  | VBool b => b
  | VNumber n => negb (n =? 0)%nat
  | VString s => JS.truthy s
  | VArray _ | VObject _ => true
  end.

(** [a || b] *)
Definition orElse (a b : value) : value := if isTruthy a then a else b.

Definition indexKey (i : nat) : string :=
  NilEmpty.string_of_uint (Nat.to_uint i).

(** [Object.keys(v)] of a value that is neither [null] nor [undefined]:
    the own keys of an object, the indices of an array or a string,
    nothing for a boolean or a number. *)
Definition objectKeys (v : value) : list string :=
  match v with
  | VObject fields => map fst fields
  | VArray items => map indexKey (seq 0 (List.length items))
  | VString s => map indexKey (seq 0 (String.length s))
  | _ => []
  end.

(** A slug property as the final filter sees it. *)
Inductive slugValue : Type :=
| SlugMissing
| SlugNotArray
| SlugArray (segments : list string).

Record param : Type := mkParam {
  slug : slugValue;
  lang : option string
}.

Definition schemasIndex : list string := ["Product-Opener"; "api"; "schemas"].

Definition schemaParam (urlName : string) : param :=
  mkParam (SlugArray ["Product-Opener"; "api"; "schemas"; "schemas"; urlName])
          (Some "en").

(** The hardcoded paths of the [catch] branch. *)
Definition fallbackPaths : list param :=
  [ mkParam (SlugArray ["Product-Opener"; "api"; "schemas"]) (Some "en");
    schemaParam "product_base";
    schemaParam "product_misc";
    schemaParam "product_tags";
    schemaParam "product_images";
    schemaParam "product_eco_score";
    schemaParam "product_ingredients";
    schemaParam "product_nutrition";
    schemaParam "product_nutriscore";
    schemaParam "product_quality";
    schemaParam "product_extended";
    schemaParam "product_metadata";
    schemaParam "product_knowledge_panels";
    schemaParam "product_attribute_groups";
    schemaParam "product";
    schemaParam "ingredient";
    schemaParam "nutrient" ].

(** The body of the [try] block of [getSchemaPaths]. *)
Definition readSchemaPaths (file : specFile) : IO.outcome (list param) :=
  match file with
  | Unreadable => IO.Throw (IO.ReadFailure "ref/api.yaml")
  | Unparseable => IO.Throw IO.ParseFailure
  | Parsed apiSpec =>
      match getProp apiSpec "components" with
      | IO.Throw e => IO.Throw e
      | IO.Ok components =>
          match getPropOptional components "schemas" with
          | IO.Throw e => IO.Throw e
          | IO.Ok found =>
              let schemas := orElse found (VObject []) in
              let schemaPaths :=
                map (fun schemaName =>
                       let urlName :=
                         JS.dashesToUnderscores (JS.toLowerCase schemaName) in
                       schemaParam urlName)
                    (objectKeys schemas) in
              (* [schemaPaths.unshift(...)] *)
              IO.Ok (mkParam (SlugArray schemasIndex) (Some "en")
                     :: schemaPaths)
          end
      end
  end.

(** [getSchemaPaths]: whatever the [try] block throws is caught. *)
Definition getSchemaPaths (file : specFile) : list param :=
  match readSchemaPaths file with
  | IO.Ok schemaPaths => schemaPaths
  | IO.Throw _ => fallbackPaths
  end.

(** [param && param.slug && Array.isArray(param.slug)] *)
Definition isValidParam (entry : option param) : bool :=
  match entry with
  | None => false
  | Some p =>
      match slug p with
      | SlugArray _ => true
      | SlugMissing | SlugNotArray => false
      end
  end.

Section Generate.

(** [source.generateParams()]; an entry may be absent or ill-formed. *)
Variable docsParams : list (option param).
(** The slugs of [reportsSource.generateParams()]. *)
Variable reportSlugs : list (list string).
(** The API specification file. *)
Variable apiYaml : specFile.

Definition reportsParams : list (option param) :=
  map (fun reportSlug =>
         Some (mkParam (SlugArray ("Infra" :: "reports" :: reportSlug)) None))
      reportSlugs.

Definition generateStaticParams : list (option param) :=
  let schemaPaths := getSchemaPaths apiYaml in
  let allParams :=
    List.app docsParams (List.app reportsParams (map Some schemaPaths)) in
  filter isValidParam allParams.

End Generate.

End Params.

(** * Vocabulary of the specification *)

Module Spec.

Definition HasPrefix (p s : string) : Prop := exists rest, s = p ++ rest.
Definition HasSuffix (suf s : string) : Prop := exists stem, s = stem ++ suf.
Definition Contains (w s : string) : Prop := exists a b, s = a ++ w ++ b.

Fixpoint allChars (p : ascii -> bool) (s : string) : bool :=
  match s with
  | EmptyString => true
  | String c r => p c && allChars p r
  end.

(** A URI-scheme prefix: a letter, then letters, digits, [+], [.] or [-],
    then a colon. *)
Definition SchemePrefixed (href : string) : Prop :=
  exists c tail rest,
    href = String c (tail ++ ":" ++ rest)
    /\ Href.isLetter c = true /\ allChars Href.isSchemeChar tail = true.

(** Site-absolute, fragment-only or scheme-prefixed. *)
Definition NotRelative (href : string) : Prop :=
  HasPrefix "/" href \/ HasPrefix "#" href \/ SchemePrefixed href.

(** The text before the first [c], all of [s] when it has none. *)
Fixpoint before (c : ascii) (s : string) : string :=
  match s with
  | EmptyString => EmptyString
  | String a r => if Ascii.eqb a c then EmptyString else String a (before c r)
  end.

(** The text after the first [c], when there is one. *)
Fixpoint after (c : ascii) (s : string) : option string :=
  match s with
  | EmptyString => None
  | String a r => if Ascii.eqb a c then Some r else after c r
  end.

Fixpoint count (c : ascii) (s : string) : nat :=
  match s with
  | EmptyString => 0
  | String a r => (if Ascii.eqb a c then 1 else 0) + count c r
  end.

(** The three portions of an href: the fragment starts at the first
    [#], the query at the first [?] before it. *)
Definition pathOf (href : string) : string :=
  before "?"%char (before "#"%char href).
Definition queryOf (href : string) : option string :=
  after "?"%char (before "#"%char href).
Definition fragmentOf (href : string) : option string :=
  after "#"%char href.

Definition marked (mark : string) (part : option string) : string :=
  match part with
  | Some t => mark ++ t
  | None => ""
  end.

(** The query/fragment suffix of the input: everything from the first
    [?] or [#] on. *)
Definition inputSuffix (href : string) : string :=
  marked "?" (queryOf href) ++ marked "#" (fragmentOf href).

Definition markedNonEmpty (mark : string) (part : option string) : string :=
  match part with
  | Some (String c t) => mark ++ String c t
  | _ => ""
  end.

(** The same suffix without an empty query and without an empty
    fragment. *)
Definition keptSuffix (href : string) : string :=
  markedNonEmpty "?" (queryOf href) ++ markedNonEmpty "#" (fragmentOf href).

(** The route with the marker segment inserted after its first [i]
    segments. *)
Definition withMarker (i : nat) (route : list string) : list string :=
  (firstn i route ++ "(docs)" :: skipn i route)%list.

(** Probing in order: the candidates are read one after the other up to
    the first that can be read, whose content is kept; when none can the
    content stays empty. *)
Inductive Probed (fileContent : string -> option string)
  : list string -> list string -> string -> Prop :=
| ProbedNone (candidates : list string) :
    (forall p, In p candidates -> fileContent p = None) ->
    Probed fileContent candidates candidates ""
| ProbedHit (skipped : list string) (hit : string) (rest : list string)
    (content : string) :
    (forall p, In p skipped -> fileContent p = None) ->
    fileContent hit = Some content ->
    Probed fileContent (skipped ++ hit :: rest)%list (skipped ++ [hit])%list
           content.

End Spec.

(** * Vocabulary of the route classifier *)

Module ApiRules.
Import Spec.

Definition httpVerbs : list string := ["get"; "post"; "patch"; "delete"; "put"].

Definition actionVerbs : list string :=
  ["predict"; "extract"; "generate"; "create"; "update"; "delete"; "retrieve";
   "list"; "destroy"; "partial_update"; "stats"].

Definition trailingActionVerbs : list string :=
  ["create"; "update"; "delete"; "retrieve"; "list"; "destroy";
   "partial_update"; "stats"].

(** [get-...], [post-...], ... *)
Definition HttpVerbPrefixed (segment : string) : Prop :=
  exists verb, In verb httpVerbs /\ HasPrefix (verb ++ "-") segment.

(** [..._get], [..._post], ... *)
Definition HttpVerbSuffixed (segment : string) : Prop :=
  exists verb, In verb httpVerbs /\ HasSuffix ("_" ++ verb) segment.

(** An action verb, possibly followed by more text. *)
Definition ActionVerbPrefixed (segment : string) : Prop :=
  exists verb, In verb actionVerbs /\ HasPrefix verb segment.

(** [..._create], [..._update], ... *)
Definition ActionVerbSuffixed (segment : string) : Prop :=
  exists verb, In verb trailingActionVerbs /\ HasSuffix ("_" ++ verb) segment.

(** An auth or knowledge-panel marker anywhere in the segment. *)
Definition HasMarker (segment : string) : Prop :=
  Contains "_auth_" segment \/ Contains "authentication" segment
  \/ Contains "knowledge_panel" segment.

(** One of the fixed namespace pairs occurs in the route, in any order. *)
Definition HasNamespacePair (route : list string) : Prop :=
  (In "Product-Opener" route /\ (In "v2" route \/ In "v3" route))
  \/ (In "Open-prices" route
      /\ (In "prices" route \/ In "auth" route \/ In "users" route
          \/ In "locations" route \/ In "proofs" route))
  \/ (In "Robotoff" route
      /\ (In "predict" route \/ In "annotation-management" route
          \/ In "insight-management" route)).

(** The segment rules the specification lists. *)
Definition ListedSegment (segment : string) : Prop :=
  HttpVerbPrefixed segment \/ HttpVerbSuffixed segment
  \/ ActionVerbPrefixed segment \/ HasMarker segment.

(** The routes the specification calls api-reference. *)
Definition ListedRoute (route : list string) : Prop :=
  (exists segment, In segment route /\ ListedSegment segment)
  \/ HasNamespacePair route.

End ApiRules.

(** * Concrete collaborators for the examples *)

Module Demo.

(** [path.join] on components that need no normalisation. *)
Definition join (parts : list string) : string := String.concat "/" parts.

Definition cwd : string := "/app".

(** [path.dirname] of a relative file path: the text before its last
    [/], or [.] when it has none. *)
Fixpoint dirnameFrom (acc s : string) : option string :=
  match s with
  | EmptyString => None
  | String c r =>
      match dirnameFrom (acc ++ String c "") r with
      | Some d => Some d
      | None => if Ascii.eqb c "/"%char then Some acc else None
      end
  end.

Definition dirname (p : string) : string :=
  match dirnameFrom "" p with
  | Some d => d
  | None => "."
  end.

(** The page being rendered: [Infra/guides/intro.mdx]. *)
Definition page : PageData :=
  mkPage "/docs/Infra/guides/intro" "Infra/guides/intro.mdx" (Some "en").

(** An index that knows [Infra/setup.mdx] and [Infra/guides/foo.mdx],
    seen from the directory [Infra/guides]. *)
Definition index (href dir : string) (language : option string)
  : option PageData :=
  if String.eqb dir "Infra/guides" then
    if String.eqb href "../setup.mdx"
    then Some (mkPage "/docs/Infra/setup" "Infra/setup.mdx" (Some "en"))
    else if String.eqb href "./foo"
    then Some (mkPage "/docs/Infra/guides/foo" "Infra/guides/foo.mdx" (Some "en"))
    else None
  else None.

(** An index whose urls are relative: [./a] is the page of url [b] and
    [./b] the page of url [c]. *)
Definition relativeIndex (href dir : string) (language : option string)
  : option PageData :=
  if String.eqb href "./a" then Some (mkPage "b" "b.mdx" None)
  else if String.eqb href "./b" then Some (mkPage "c" "c.mdx" None)
  else None.

(** An index that knows no page. *)
Definition emptyIndex (href dir : string) (language : option string)
  : option PageData := None.

(** A content tree with one file, under the [(docs)] folder convention. *)
Definition fileContent (filePath : string) : option string :=
  if String.eqb filePath "/app/content/docs/guide/(docs)/intro.mdx"
  then Some "# Intro" else None.

(** A docs source that knows every route, and a reports source that
    knows every report. *)
Definition getPage (slug : option (list string)) : option PageData :=
  Some page.
Definition getReport (slug : list string) : option string :=
  Some (JS.join "/" slug).

(** A specification document with the single schema [Foo]. *)
Definition apiSpec : Params.value :=
  Params.VObject
    [("openapi", Params.VString "3.1.0");
     ("components",
      Params.VObject [("schemas", Params.VObject [("Foo", Params.VObject [])])])].

End Demo.

(** * Page metadata *)

Module Metadata.

(** What [generateMetadata] returns. *)
Record metadata : Type := mkMetadata {
  title : string;
  description : option string
}.

Section Generate.

(** [source.getPage(slug)] *)
Variable sourceGetPage : option (list string) -> option PageData.
(** [page.data.title] and [page.data.description] *)
Variable dataTitle : PageData -> string.
Variable dataDescription : PageData -> option string.

Definition generateMetadata (slug : option (list string)) : IO.io metadata :=
  match sourceGetPage slug with
  | None => IO.throw IO.NotFound
  | Some page => IO.ret (mkMetadata (dataTitle page) (dataDescription page))
  end.

End Generate.

End Metadata.

(** * Vocabulary for the rebuilt suffix and the schema names *)

Module Rebuilt.
Import Spec.

(** The part of a portion up to its next separator. *)
Definition firstPiece (c : ascii) (part : option string) : option string :=
  option_map (before c) part.

(** The suffix made of the first piece of the query and the first piece
    of the fragment, an empty piece left out. *)
Definition rebuiltSuffix (href : string) : string :=
  markedNonEmpty "?" (firstPiece "?" (queryOf href))
  ++ markedNonEmpty "#" (firstPiece "#" (fragmentOf href)).


(** [schemaName.toLowerCase().replace(/-/g, "_")] *)
Definition urlName (schemaName : string) : string :=
  JS.dashesToUnderscores (JS.toLowerCase schemaName).


(** The entry of the bare schemas index. *)
Definition indexParam : Params.param :=
  Params.mkParam (Params.SlugArray Params.schemasIndex) (Some "en").

(** An explicitly relative path: it starts with [./] or [../]. *)
Definition Explicit (p : string) : Prop := HasPrefix "./" p \/ HasPrefix "../" p.

End Rebuilt.

(** * More concrete collaborators *)

Module Sample.

(** An index that knows both [foo.md] and [foo.mdx] beside the page. *)
Definition bothIndex (href dir : string) (language : option string)
  : option PageData :=
  if String.eqb href "./foo.md"
  then Some (mkPage "/docs/literal" "literal.md" (Some "en"))
  else if String.eqb href "./foo.mdx"
  then Some (mkPage "/docs/rewritten" "rewritten.mdx" (Some "en"))
  else None.

(** A docs source that knows no page. *)
Definition noPage (slug : option (list string)) : option PageData := None.

(** A reports source that knows no report. *)
Definition noReport (slug : list string) : option string := None.

Definition dataTitle (page : PageData) : string := url page.
Definition dataDescription (page : PageData) : option string := None.

(** A content tree in which every file can be read. *)
Definition everyFile (filePath : string) : option string := Some filePath.

End Sample.

(** * Properties *)

(** ** Strings *)

Module StringFacts.

Lemma append_nil_r (s : string) : s ++ "" = s.
Proof. induction s as [|c s IH]; simpl; [reflexivity | now rewrite IH]. Qed.

Lemma append_assoc (s t u : string) : (s ++ t) ++ u = s ++ t ++ u.
Proof. induction s as [|c s IH]; simpl; [reflexivity | now rewrite IH]. Qed.

Lemma length_append (s t : string) :
  String.length (s ++ t) = String.length s + String.length t.
Proof. induction s as [|c s IH]; simpl; [reflexivity | now rewrite IH]. Qed.

Lemma append_eq_nil (s t : string) : s ++ t = "" -> s = "" /\ t = "".
Proof. destruct s; simpl; intros H; [now split | discriminate]. Qed.

Lemma append_cancel_l (s t u : string) : s ++ t = s ++ u -> t = u.
Proof.
  induction s as [|c s IH]; simpl; intros H; [exact H|].
  injection H as H. now apply IH.
Qed.

Lemma substring_whole (s : string) : substring 0 (String.length s) s = s.
Proof. induction s as [|c s IH]; simpl; [reflexivity | now rewrite IH]. Qed.

Lemma substring_head (s t : string) :
  substring 0 (String.length s) (s ++ t) = s.
Proof.
  induction s as [|c s IH]; simpl.
  - now destruct t.
  - now rewrite IH.
Qed.

Lemma substring_tail (s t : string) (m : nat) :
  substring (String.length s) m (s ++ t) = substring 0 m t.
Proof. induction s as [|c s IH]; simpl; [reflexivity | exact IH]. Qed.

(** Cutting a string at [n] loses nothing. *)
Lemma substring_cut (s : string) (n : nat) :
  n <= String.length s ->
  s = substring 0 n s ++ substring n (String.length s - n) s.
Proof.
  revert n. induction s as [|c s IH]; intros n Hn; simpl in *.
  - destruct n; [reflexivity | lia].
  - destruct n as [|n]; simpl.
    + now rewrite substring_whole.
    + f_equal. apply IH. lia.
Qed.

Lemma startsWith_iff (s p : string) :
  JS.startsWith s p = true <-> exists rest, s = p ++ rest.
Proof.
  revert s. induction p as [|b p IH]; intros s; simpl.
  - split; [intros _; now exists s | reflexivity].
  - destruct s as [|a s].
    + split; [discriminate | intros [rest H]; discriminate].
    + rewrite andb_true_iff, Ascii.eqb_eq, IH. split.
      * intros [-> [rest ->]]. now exists rest.
      * intros [rest H]. injection H as -> ->. split; [reflexivity | now exists rest].
Qed.

Lemma startsWith_append (p rest : string) : JS.startsWith (p ++ rest) p = true.
Proof. apply startsWith_iff. now exists rest. Qed.

Lemma endsWith_iff (s suf : string) :
  JS.endsWith s suf = true <-> exists stem, s = stem ++ suf.
Proof.
  unfold JS.endsWith. rewrite andb_true_iff, Nat.leb_le, String.eqb_eq. split.
  - intros [Hlen Hsub].
    exists (substring 0 (String.length s - String.length suf) s).
    pose proof (substring_cut s (String.length s - String.length suf)) as Hcut.
    replace (String.length s - (String.length s - String.length suf))
      with (String.length suf) in Hcut by lia.
    rewrite Hsub in Hcut. apply Hcut. lia.
  - intros [stem ->]. rewrite length_append. split; [lia|].
    replace (String.length stem + String.length suf - String.length suf)
      with (String.length stem) by lia.
    rewrite substring_tail. apply substring_whole.
Qed.

Lemma endsWith_append (stem suf : string) : JS.endsWith (stem ++ suf) suf = true.
Proof. apply endsWith_iff. now exists stem. Qed.

Lemma endsWith_false (s suf : string) :
  (forall stem, s <> stem ++ suf) -> JS.endsWith s suf = false.
Proof.
  intros H. destruct (JS.endsWith s suf) eqn:E; [|reflexivity].
  apply endsWith_iff in E. destruct E as [stem ->]. now destruct (H stem).
Qed.

Lemma sliceEnd_append (stem suf : string) :
  JS.sliceEnd (stem ++ suf) (String.length suf) = stem.
Proof.
  unfold JS.sliceEnd. rewrite length_append.
  replace (String.length stem + String.length suf - String.length suf)
    with (String.length stem) by lia.
  apply substring_head.
Qed.

(** The last character of a string decides which suffixes it can have. *)
Lemma last_char_inj (s t : string) (a b : ascii) :
  s ++ String a "" = t ++ String b "" -> a = b.
Proof.
  revert t. induction s as [|c s IH]; intros t H.
  - destruct t as [|d t]; simpl in H.
    + now injection H.
    + injection H as _ H. destruct t; discriminate.
  - destruct t as [|d t]; simpl in H.
    + injection H as _ H. destruct s; discriminate.
    + injection H as _ H. now apply IH in H.
Qed.

End StringFacts.

(** ** Regular expressions: [matches] decides the language *)

Module RegexFacts.
Import Regex StringFacts.

Lemma lang_void_inv (s : string) : ~ lang Void s.
Proof. intros H. inversion H. Qed.

Lemma lang_eps_inv (s : string) : lang Eps s -> s = "".
Proof. intros H. now inversion H. Qed.

Lemma lang_cls_inv (p : ascii -> bool) (s : string) :
  lang (Cls p) s -> exists c, s = String c "" /\ p c = true.
Proof. intros H. inversion H; subst. now exists c. Qed.

Lemma lang_seq_inv (r1 r2 : re) (s : string) :
  lang (Seq r1 r2) s ->
  exists s1 s2, s = s1 ++ s2 /\ lang r1 s1 /\ lang r2 s2.
Proof. intros H. inversion H; subst. now exists s1, s2. Qed.

Lemma lang_alt_inv (r1 r2 : re) (s : string) :
  lang (Alt r1 r2) s -> lang r1 s \/ lang r2 s.
Proof. intros H. inversion H; subst; [now left | now right]. Qed.

(** A non-empty word of a star starts with a non-empty word of its body. *)
Lemma lang_star_cons_inv (r : re) (c : ascii) (s : string) :
  lang (Star r) (String c s) ->
  exists s1 s2, s = s1 ++ s2 /\ lang r (String c s1) /\ lang (Star r) s2.
Proof.
  intros H.
  remember (Star r) as r' eqn:Er. remember (String c s) as w eqn:Ew.
  revert s Ew.
  induction H as [| | | | | |r0 s1 s2 H1 _ H2 IH2]; intros t Ew; try discriminate.
  injection Er as ->.
  destruct s1 as [|c1 s1]; simpl in Ew.
  - now apply IH2.
  - injection Ew as Hc Ht. subst c1 t. now exists s1, s2.
Qed.

Lemma nullable_iff (r : re) : nullable r = true <-> lang r "".
Proof.
  induction r as [| |p|r1 IH1 r2 IH2|r1 IH1 r2 IH2|r IH]; simpl.
  - split; [discriminate | intros H; now apply lang_void_inv in H].
  - split; [intros _; constructor | reflexivity].
  - split; [discriminate|]. intros H. apply lang_cls_inv in H.
    destruct H as [c [H _]]. discriminate.
  - rewrite andb_true_iff, IH1, IH2. split.
    + intros [H1 H2]. change "" with ("" ++ ""). now constructor.
    + intros H. apply lang_seq_inv in H. destruct H as [s1 [s2 [E [H1 H2]]]].
      symmetry in E. apply append_eq_nil in E. destruct E as [-> ->]. now split.
  - rewrite orb_true_iff, IH1, IH2. split.
    + intros [H|H]; [now apply LAltL | now apply LAltR].
    + apply lang_alt_inv.
  - split; [intros _; constructor | reflexivity].
Qed.

Lemma deriv_iff (c : ascii) (r : re) (s : string) :
  lang (deriv c r) s <-> lang r (String c s).
Proof.
  revert s.
  induction r as [| |p|r1 IH1 r2 IH2|r1 IH1 r2 IH2|r IH]; intros s; simpl.
  - split; intros H; now apply lang_void_inv in H.
  - split; intros H; [now apply lang_void_inv in H|].
    apply lang_eps_inv in H. discriminate.
  - destruct (p c) eqn:Ep; split; intros H.
    + apply lang_eps_inv in H. subst. now constructor.
    + apply lang_cls_inv in H. destruct H as [c' [E _]].
      injection E as _ ->. constructor.
    + now apply lang_void_inv in H.
    + apply lang_cls_inv in H. destruct H as [c' [E Hp]].
      injection E as -> _. congruence.
  - assert (Hfwd : lang (Seq (deriv c r1) r2) s -> lang (Seq r1 r2) (String c s)).
    { intros H. apply lang_seq_inv in H. destruct H as [s1 [s2 [-> [H1 H2]]]].
      apply IH1 in H1. change (String c (s1 ++ s2)) with (String c s1 ++ s2).
      now constructor. }
    destruct (nullable r1) eqn:En; split; intros H.
    + apply lang_alt_inv in H. destruct H as [H|H]; [now apply Hfwd|].
      apply IH2 in H. apply nullable_iff in En.
      change (String c s) with ("" ++ String c s). now constructor.
    + apply lang_seq_inv in H. destruct H as [s1 [s2 [E [H1 H2]]]].
      destruct s1 as [|c1 s1]; simpl in E.
      * subst s2. apply LAltR. now apply IH2.
      * injection E as <- ->. apply LAltL. constructor; [now apply IH1 | exact H2].
    + now apply Hfwd.
    + apply lang_seq_inv in H. destruct H as [s1 [s2 [E [H1 H2]]]].
      destruct s1 as [|c1 s1]; simpl in E.
      * apply nullable_iff in H1. congruence.
      * injection E as <- ->. constructor; [now apply IH1 | exact H2].
  - split; intros H.
    + apply lang_alt_inv in H.
      destruct H as [H|H]; [apply LAltL; now apply IH1 | apply LAltR; now apply IH2].
    + apply lang_alt_inv in H.
      destruct H as [H|H]; [apply LAltL; now apply IH1 | apply LAltR; now apply IH2].
  - split; intros H.
    + apply lang_seq_inv in H. destruct H as [s1 [s2 [-> [H1 H2]]]].
      apply IH in H1. change (String c (s1 ++ s2)) with (String c s1 ++ s2).
      now constructor.
    + apply lang_star_cons_inv in H. destruct H as [s1 [s2 [-> [H1 H2]]]].
      constructor; [now apply IH | exact H2].
Qed.

Theorem matches_iff (r : re) (s : string) : matches r s = true <-> lang r s.
Proof.
  revert r. induction s as [|c s IH]; intros r; simpl.
  - apply nullable_iff.
  - rewrite IH. apply deriv_iff.
Qed.

Lemma lang_anyChars (s : string) : lang anyChars s.
Proof.
  induction s as [|c s IH]; [constructor|].
  change (String c s) with (String c "" ++ s).
  constructor; [now constructor | exact IH].
Qed.

Lemma lang_lit_iff (w s : string) : lang (lit w) s <-> s = w.
Proof.
  revert s. induction w as [|c w IH]; intros s; simpl.
  - split; [apply lang_eps_inv | intros ->; constructor].
  - split.
    + intros H. apply lang_seq_inv in H. destruct H as [s1 [s2 [-> [H1 H2]]]].
      apply lang_cls_inv in H1. destruct H1 as [c' [-> Hc]].
      apply Ascii.eqb_eq in Hc. subst c'. apply IH in H2. now subst.
    + intros ->. change (String c w) with (String c "" ++ w).
      constructor; [constructor; apply Ascii.eqb_refl | now apply IH].
Qed.

Lemma lang_oneOf_iff (ws : list string) (s : string) :
  lang (oneOf ws) s <-> In s ws.
Proof.
  induction ws as [|w ws IH]; simpl.
  - split; [apply lang_void_inv | tauto].
  - split.
    + intros H. apply lang_alt_inv in H.
      destruct H as [H|H]; [left; symmetry; now apply lang_lit_iff | right; now apply IH].
    + intros [->|H]; [apply LAltL; now apply lang_lit_iff | apply LAltR; now apply IH].
Qed.

(** [test]: some substring is in the language of the body; an anchor
    pins it to the start or to the end. *)
Theorem test_iff (r : regexp) (s : string) :
  test r s = true <->
  exists a m b, s = a ++ m ++ b /\ lang (body r) m
                /\ (atStart r = true -> a = "") /\ (atEnd r = true -> b = "").
Proof.
  unfold test. rewrite matches_iff. split.
  - intros H. apply lang_seq_inv in H. destruct H as [a [t [-> [Ha H]]]].
    apply lang_seq_inv in H. destruct H as [m [b [-> [Hm Hb]]]].
    exists a, m, b. repeat split; try assumption.
    + intros E. rewrite E in Ha. now apply lang_eps_inv.
    + intros E. rewrite E in Hb. now apply lang_eps_inv.
  - intros [a [m [b [-> [Hm [Ha Hb]]]]]].
    constructor; [|constructor; [exact Hm|]].
    + destruct (atStart r); [rewrite Ha by reflexivity; constructor | apply lang_anyChars].
    + destruct (atEnd r); [rewrite Hb by reflexivity; constructor | apply lang_anyChars].
Qed.

End RegexFacts.

(** ** Href candidate builder *)

Module HrefFacts.
Import StringFacts RegexFacts Spec.

Lemma md_not_mdx (s t : string) : s ++ ".mdx" <> t ++ ".md".
Proof.
  intros H.
  change (s ++ ".mdx") with (s ++ ".md" ++ String "x" "") in H.
  change (t ++ ".md") with (t ++ ".m" ++ String "d" "") in H.
  rewrite <- !append_assoc in H. apply last_char_inj in H. discriminate.
Qed.

Lemma slash_not_md (s t : string) : s ++ "/" <> t ++ ".md".
Proof.
  intros H.
  change (t ++ ".md") with (t ++ ".m" ++ String "d" "") in H.
  rewrite <- append_assoc in H. apply last_char_inj in H. discriminate.
Qed.

Lemma slash_not_mdx (s t : string) : s ++ "/" <> t ++ ".mdx".
Proof.
  intros H.
  change (t ++ ".mdx") with (t ++ ".md" ++ String "x" "") in H.
  rewrite <- append_assoc in H. apply last_char_inj in H. discriminate.
Qed.

Lemma candidates_md (stem : string) :
  Href.buildHrefCandidates (stem ++ ".md") = [stem ++ ".md"; stem ++ ".mdx"].
Proof.
  unfold Href.buildHrefCandidates. rewrite endsWith_append.
  pose proof (sliceEnd_append stem ".md") as E. cbn [String.length] in E.
  now rewrite E.
Qed.

Lemma candidates_mdx (stem : string) :
  Href.buildHrefCandidates (stem ++ ".mdx") = [stem ++ ".mdx"].
Proof.
  unfold Href.buildHrefCandidates.
  rewrite (endsWith_false (stem ++ ".mdx") ".md")
    by (intros t; apply md_not_mdx).
  now rewrite endsWith_append.
Qed.

Lemma candidates_slash (stem : string) :
  Href.buildHrefCandidates (stem ++ "/")
  = [stem ++ ".mdx"; (stem ++ "/") ++ "index.mdx"].
Proof.
  unfold Href.buildHrefCandidates.
  rewrite (endsWith_false (stem ++ "/") ".md")
    by (intros t; apply slash_not_md).
  rewrite (endsWith_false (stem ++ "/") ".mdx")
    by (intros t; apply slash_not_mdx).
  rewrite endsWith_append.
  pose proof (sliceEnd_append stem "/") as E. cbn [String.length] in E.
  now rewrite E.
Qed.

Lemma candidates_other (path : string) :
  ~ HasSuffix ".md" path -> ~ HasSuffix ".mdx" path -> ~ HasSuffix "/" path ->
  Href.buildHrefCandidates path = [path].
Proof.
  intros H1 H2 H3. unfold Href.buildHrefCandidates.
  rewrite !endsWith_false; [reflexivity| | |];
    intros stem E; [apply H3 | apply H2 | apply H1]; now exists stem.
Qed.

(** C1. [buildHrefCandidates] returns exactly the list its shape rules
    prescribe: a path [stem.md] gives the literal path and then
    [stem.mdx]; a path ending in [.mdx] gives itself; a path [stem/]
    gives the sibling file [stem.mdx] and then the nested index
    [stem/index.mdx] (so [docs/] tries [docs.mdx] first); a path of any
    other shape gives itself. *)
Theorem buildHrefCandidates_shapes :
  (forall stem,
      Href.buildHrefCandidates (stem ++ ".md") = [stem ++ ".md"; stem ++ ".mdx"])
  /\ (forall stem,
         Href.buildHrefCandidates (stem ++ ".mdx") = [stem ++ ".mdx"])
  /\ (forall stem,
         Href.buildHrefCandidates (stem ++ "/")
         = [stem ++ ".mdx"; stem ++ "/index.mdx"])
  /\ (forall path,
         ~ HasSuffix ".md" path -> ~ HasSuffix ".mdx" path ->
         ~ HasSuffix "/" path ->
         Href.buildHrefCandidates path = [path])
  /\ Href.buildHrefCandidates "docs/" = ["docs.mdx"; "docs/index.mdx"].
Proof.
  split; [exact candidates_md|].
  split; [exact candidates_mdx|].
  split; [|split; [exact candidates_other | reflexivity]].
  intros stem. rewrite candidates_slash. now rewrite append_assoc.
Qed.

End HrefFacts.

(** ** Href resolver *)

Module ResolverFacts.
Import StringFacts RegexFacts Spec.

Lemma lang_star_cls_iff (p : ascii -> bool) (s : string) :
  Regex.lang (Regex.Star (Regex.Cls p)) s <-> allChars p s = true.
Proof.
  induction s as [|c s IH]; simpl.
  - split; [reflexivity | intros _; constructor].
  - rewrite andb_true_iff. split.
    + intros H. apply lang_star_cons_inv in H.
      destruct H as [s1 [s2 [-> [H1 H2]]]].
      apply lang_cls_inv in H1. destruct H1 as [c' [E Hp]].
      injection E as -> ->. split; [exact Hp | now apply IH].
    + intros [Hp Hs]. change (String c s) with (String c "" ++ s).
      constructor; [now constructor | now apply IH].
Qed.

Lemma schemePrefix_iff (href : string) :
  Regex.test Href.schemePrefix href = true <-> SchemePrefixed href.
Proof.
  rewrite test_iff. unfold SchemePrefixed. simpl. split.
  - intros [a [m [b [-> [Hm [Ha _]]]]]]. rewrite Ha by reflexivity. simpl.
    apply lang_seq_inv in Hm. destruct Hm as [s1 [s2 [-> [H1 H2]]]].
    apply lang_cls_inv in H1. destruct H1 as [c [-> Hc]].
    apply lang_seq_inv in H2. destruct H2 as [tail [s3 [-> [H2 H3]]]].
    apply lang_cls_inv in H3. destruct H3 as [c' [-> Hc']].
    apply Ascii.eqb_eq in Hc'. subst c'.
    exists c, tail, b. split; [|split; [exact Hc | now apply lang_star_cls_iff]].
    simpl. now rewrite append_assoc.
  - intros [c [tail [rest [-> [Hc Ht]]]]].
    exists "", (String c (tail ++ ":")), rest. simpl. split; [|split; [|split]].
    + now rewrite append_assoc.
    + change (String c (tail ++ ":")) with (String c "" ++ tail ++ ":").
      constructor; [now constructor|].
      constructor; [now apply lang_star_cls_iff|].
      constructor. apply Ascii.eqb_refl.
    + reflexivity.
    + discriminate.
Qed.

Lemma isNotRelative_iff (href : string) :
  Href.isNotRelative href = true <-> NotRelative href.
Proof.
  unfold Href.isNotRelative, NotRelative, HasPrefix.
  rewrite !orb_true_iff, !startsWith_iff, schemePrefix_iff. tauto.
Qed.

(** What follows a non-relative href does not make it relative. *)
Lemma notRelative_append (u suffix : string) :
  NotRelative u -> NotRelative (u ++ suffix).
Proof.
  intros [[rest ->]|[[rest ->]|[c [tail [rest [-> [Hc Ht]]]]]]].
  - left. exists (rest ++ suffix). apply append_assoc.
  - right. left. exists (rest ++ suffix). apply append_assoc.
  - right. right. exists c, tail, (rest ++ suffix). split; [|now split].
    simpl. f_equal. rewrite append_assoc. reflexivity.
Qed.

Lemma isNotRelative_append (u suffix : string) :
  NotRelative u -> Href.isNotRelative (u ++ suffix) = true.
Proof.
  intros H. apply isNotRelative_iff. now apply notRelative_append.
Qed.

(** *** What [split] cuts *)

Lemma split_unfold (c : ascii) (s : string) :
  JS.split c s
  = before c s :: match after c s with
                  | Some t => JS.split c t
                  | None => []
                  end.
Proof.
  induction s as [|a s IH]; simpl; [reflexivity|].
  destruct (Ascii.eqb a c); [reflexivity|]. now rewrite IH.
Qed.

Lemma destructure_split (c : ascii) (s : string) :
  JS.destructure2 (JS.splitLimit c 2 s)
  = (before c s, match after c s with
                 | Some t => before c t
                 | None => ""
                 end).
Proof.
  unfold JS.destructure2, JS.splitLimit. rewrite split_unfold.
  destruct (after c s) as [t|]; [|reflexivity].
  now rewrite (split_unfold c t).
Qed.

Lemma before_no_occurrence (c : ascii) (s : string) :
  count c s = 0 -> before c s = s.
Proof.
  induction s as [|a s IH]; simpl; [reflexivity|].
  destruct (Ascii.eqb a c); [discriminate|]. intros H. now rewrite IH.
Qed.

Lemma count_after (c : ascii) (s t : string) :
  after c s = Some t -> count c s = S (count c t).
Proof.
  induction s as [|a s IH]; simpl; [discriminate|].
  destruct (Ascii.eqb a c).
  - now intros [= ->].
  - exact IH.
Qed.

(** With a single separator the second piece is all that follows it. *)
Lemma second_piece (c : ascii) (s : string) :
  count c s <= 1 ->
  match after c s with
  | Some t => before c t
  | None => ""
  end = match after c s with
        | Some t => t
        | None => ""
        end.
Proof.
  intros H. destruct (after c s) as [t|] eqn:E; [|reflexivity].
  apply count_after in E. apply before_no_occurrence. lia.
Qed.

Lemma before_after (c : ascii) (s : string) :
  s = before c s ++ marked (String c "") (after c s).
Proof.
  induction s as [|a s IH]; simpl; [reflexivity|].
  destruct (Ascii.eqb a c) eqn:E.
  - apply Ascii.eqb_eq in E. now subst.
  - simpl. now rewrite <- IH.
Qed.

(** The three portions are the whole href. *)
Lemma href_portions (href : string) :
  href = pathOf href ++ inputSuffix href.
Proof.
  unfold pathOf, inputSuffix, queryOf, fragmentOf.
  rewrite <- append_assoc.
  rewrite <- (before_after "?" (before "#" href)).
  apply before_after.
Qed.

Lemma truthy_marked (mark t : string) :
  (if JS.truthy t then mark ++ t else "") = markedNonEmpty mark (Some t).
Proof. now destruct t. Qed.

(** Without repeated separators the suffix the code rebuilds is the
    input's, empty portions left out. *)
Lemma suffix_kept (href : string) :
  count "#" href <= 1 -> count "?" (before "#" href) <= 1 ->
  let '(withoutHash, hashPart) := Href.splitHash href in
  let '(rawPath, queryPart) := Href.splitQuery withoutHash in
  rawPath = pathOf href /\ Href.suffixOf queryPart hashPart = keptSuffix href.
Proof.
  intros Hh Hq. unfold Href.splitHash, Href.splitQuery.
  rewrite !destructure_split.
  rewrite (second_piece "#" href Hh), (second_piece "?" _ Hq).
  split; [reflexivity|].
  unfold Href.suffixOf, keptSuffix, queryOf, fragmentOf.
  rewrite !truthy_marked.
  destruct (after "?" (before "#" href)), (after "#" href); reflexivity.
Qed.

Lemma kept_is_input (href : string) :
  queryOf href <> Some "" -> fragmentOf href <> Some "" ->
  keptSuffix href = inputSuffix href.
Proof.
  unfold keptSuffix, inputSuffix. intros Hq Hf.
  destruct (queryOf href) as [[|c q]|], (fragmentOf href) as [[|d f]|];
    try reflexivity; congruence.
Qed.

Lemma rawPath_is_path (href : string) :
  fst (Href.splitQuery (fst (Href.splitHash href))) = pathOf href.
Proof.
  unfold Href.splitHash, Href.splitQuery. now rewrite !destructure_split.
Qed.

End ResolverFacts.

Module Resolution.
Import StringFacts RegexFacts Spec ResolverFacts.

Section WithIndex.

Variable getPageByHref : string -> string -> option string -> option PageData.
Variable dirname : string -> string.
Variable page : PageData.

Local Abbreviation lookup candidate :=
  (getPageByHref candidate (dirname (path page)) (locale page)).
Local Abbreviation resolveCandidates :=
  (Href.resolveCandidates getPageByHref dirname page).
Local Abbreviation resolveInternalHref :=
  (Href.resolveInternalHref getPageByHref dirname page).

Lemma resolveCandidates_none (candidates : list string) (suffix href : string) :
  (forall candidate, In candidate candidates -> lookup candidate = None) ->
  resolveCandidates candidates suffix href = href.
Proof.
  induction candidates as [|c rest IH]; intros H; simpl; [reflexivity|].
  rewrite (H c) by now left.
  apply IH. intros x Hx. apply H. now right.
Qed.

(** The loop returns the original href, or the url of the first
    candidate the index knows followed by the suffix. *)
Lemma resolveCandidates_cases (candidates : list string) (suffix href : string) :
  resolveCandidates candidates suffix href = href
  \/ exists skipped candidate rest target,
       candidates = (skipped ++ candidate :: rest)%list
       /\ (forall x, In x skipped -> lookup x = None)
       /\ lookup candidate = Some target
       /\ resolveCandidates candidates suffix href = url target ++ suffix.
Proof.
  induction candidates as [|c rest IH]; simpl; [now left|].
  destruct (lookup c) as [target|] eqn:E.
  - right. exists [], c, rest, target. repeat split; try assumption.
    intros x [].
  - destruct IH as [IH|[skipped [c' [rest' [target [-> [Hs [Hc Hr]]]]]]]].
    + now left.
    + right. exists (c :: skipped), c', rest', target.
      repeat split; try assumption.
      intros x [<-|Hx]; [exact E | now apply Hs].
Qed.

Lemma resolve_relative (href : string) :
  Href.isNotRelative href = false ->
  resolveInternalHref href
  = resolveCandidates
      (Href.buildHrefCandidates (Href.explicitBase (pathOf href)))
      (let '(withoutHash, hashPart) := Href.splitHash href in
       let '(_, queryPart) := Href.splitQuery withoutHash in
       Href.suffixOf queryPart hashPart)
      href.
Proof.
  intros H. unfold Href.resolveInternalHref. rewrite H.
  rewrite <- (rawPath_is_path href).
  destruct (Href.splitHash href) as [withoutHash hashPart]. simpl.
  now destruct (Href.splitQuery withoutHash) as [rawPath queryPart].
Qed.

(** C2. [resolveInternalHref] returns its input unchanged for every
    href that is site-absolute (starts with [/]), fragment-only (starts
    with [#]) or scheme-prefixed, and for every href none of whose
    candidates resolves in the page index. *)
Theorem resolveInternalHref_unchanged (href : string) :
  NotRelative href
  \/ (forall candidate,
         In candidate (Href.buildHrefCandidates (Href.explicitBase (pathOf href))) ->
         getPageByHref candidate (dirname (path page)) (locale page) = None) ->
  resolveInternalHref href = href.
Proof.
  intros H. destruct (Href.isNotRelative href) eqn:E.
  - unfold Href.resolveInternalHref. now rewrite E.
  - destruct H as [H|H].
    + apply isNotRelative_iff in H. congruence.
    + rewrite (resolve_relative href E). now apply resolveCandidates_none.
Qed.

(** C3, as amended. For every relative href with at most one [#] and at
    most one [?] before it, the result is the original href or the
    canonical url of a resolving candidate followed by the query and
    fragment of the input, an empty query and an empty fragment left
    out; when neither is empty the result ends with the whole
    query/fragment suffix of the input, as the result for
    [foo?x=1#y] ends with [?x=1#y]. *)
Theorem query_and_fragment_kept :
  (forall href,
      Href.isNotRelative href = false ->
      count "#" href <= 1 -> count "?" (before "#" href) <= 1 ->
      (resolveInternalHref href = href
       \/ exists candidate target,
            In candidate
               (Href.buildHrefCandidates (Href.explicitBase (pathOf href)))
            /\ getPageByHref candidate (dirname (path page)) (locale page)
               = Some target
            /\ resolveInternalHref href = url target ++ keptSuffix href)
      /\ (queryOf href <> Some "" -> fragmentOf href <> Some "" ->
          exists finalPath, resolveInternalHref href = finalPath ++ inputSuffix href))
  /\ exists finalPath, resolveInternalHref "foo?x=1#y" = finalPath ++ "?x=1#y".
Proof.
  assert (Hmain : forall href,
      Href.isNotRelative href = false ->
      count "#" href <= 1 -> count "?" (before "#" href) <= 1 ->
      resolveInternalHref href = href
      \/ exists candidate target,
           In candidate
              (Href.buildHrefCandidates (Href.explicitBase (pathOf href)))
           /\ lookup candidate = Some target
           /\ resolveInternalHref href = url target ++ keptSuffix href).
  { intros href Hrel Hh Hq. rewrite (resolve_relative href Hrel).
    pose proof (suffix_kept href Hh Hq) as Hs.
    destruct (Href.splitHash href) as [withoutHash hashPart].
    destruct (Href.splitQuery withoutHash) as [rawPath queryPart].
    destruct Hs as [_ ->].
    destruct (resolveCandidates_cases
                (Href.buildHrefCandidates (Href.explicitBase (pathOf href)))
                (keptSuffix href) href)
      as [H|[skipped [c [rest [target [Hc [_ [Ht Hr]]]]]]]]; [now left|].
    right. exists c, target. split; [|now split].
    rewrite Hc. apply in_or_app. right. now left. }
  assert (Hends : forall href,
      Href.isNotRelative href = false ->
      count "#" href <= 1 -> count "?" (before "#" href) <= 1 ->
      queryOf href <> Some "" -> fragmentOf href <> Some "" ->
      exists finalPath, resolveInternalHref href = finalPath ++ inputSuffix href).
  { intros href Hrel Hh Hq Hqe Hfe.
    destruct (Hmain href Hrel Hh Hq) as [H|[c [target [_ [_ H]]]]].
    - exists (pathOf href). rewrite H. apply href_portions.
    - exists (url target). rewrite H. now rewrite kept_is_input. }
  split.
  - intros href Hrel Hh Hq. split; [now apply Hmain | now apply Hends].
  - apply (Hends "foo?x=1#y"); try reflexivity; simpl; try lia; discriminate.
Qed.

(** C4, as amended. When no canonical url of the page index is itself a
    relative href (each is site-absolute, as [/docs/...], or
    fragment-only or scheme-prefixed), resolution is idempotent: a
    result that was rewritten is returned unchanged by the guard on
    non-relative hrefs, and an href that did not resolve is its own
    result. *)
Theorem resolveInternalHref_idempotent :
  (forall candidate dir language target,
      getPageByHref candidate dir language = Some target ->
      NotRelative (url target)) ->
  forall href,
    resolveInternalHref (resolveInternalHref href) = resolveInternalHref href.
Proof.
  intros Habs href. destruct (Href.isNotRelative href) eqn:E.
  - assert (H : resolveInternalHref href = href).
    { unfold Href.resolveInternalHref. now rewrite E. }
    now rewrite !H.
  - pose proof (resolve_relative href E) as Hr.
    match type of Hr with
    | _ = resolveCandidates ?cs ?suffix _ =>
        destruct (resolveCandidates_cases cs suffix href)
          as [H|[skipped [c [rest [target [_ [_ [Ht H]]]]]]]]
    end; rewrite <- Hr in H.
    + now rewrite !H.
    + rewrite H. unfold Href.resolveInternalHref.
      rewrite isNotRelative_append; [reflexivity|].
      now apply (Habs c (dirname (path page)) (locale page)).
Qed.

End WithIndex.

(** The hrefs of C2 at work: a scheme-prefixed href with an index that
    knows pages, and a relative href with an index that knows none. *)
Lemma resolveInternalHref_unchanged_witness :
  Href.resolveInternalHref Demo.index Demo.dirname Demo.page
    "https://example.org/a.md" = "https://example.org/a.md"
  /\ Href.resolveInternalHref Demo.emptyIndex Demo.dirname Demo.page
       "guide.md#top" = "guide.md#top".
Proof.
  split.
  - apply (resolveInternalHref_unchanged Demo.index Demo.dirname Demo.page).
    left. right. right.
    exists "h"%char, "ttps", "//example.org/a.md". repeat split.
  - apply (resolveInternalHref_unchanged Demo.emptyIndex Demo.dirname Demo.page).
    right. intros candidate _. reflexivity.
Defined.

(** The href of the specification's example, [../setup.md#install] seen
    from [Infra/guides], resolves to the url of [Infra/setup] and keeps
    its fragment. *)
Lemma query_and_fragment_kept_witness :
  Href.isNotRelative "../setup.md#install" = false
  /\ count "#" "../setup.md#install" <= 1
  /\ count "?" (before "#" "../setup.md#install") <= 1
  /\ exists finalPath,
       Href.resolveInternalHref Demo.index Demo.dirname Demo.page
         "../setup.md#install" = finalPath ++ inputSuffix "../setup.md#install".
Proof.
  split; [reflexivity|]. split; [simpl; lia|]. split; [simpl; lia|].
  apply (proj1 (query_and_fragment_kept Demo.index Demo.dirname Demo.page));
    try reflexivity; simpl; try lia; discriminate.
Defined.

(** C3 fails as stated: with the page [./foo] in the index, the bare
    [?] of [foo?] is dropped, and of [foo?x=1?y=2] only [?x=1] is kept. *)
Lemma suffix_not_kept :
  (Href.isNotRelative "foo?" = false
   /\ inputSuffix "foo?" = "?"
   /\ Href.resolveInternalHref Demo.index Demo.dirname Demo.page "foo?"
      = "/docs/Infra/guides/foo"
   /\ JS.endsWith "/docs/Infra/guides/foo" "?" = false)
  /\ (Href.isNotRelative "foo?x=1?y=2" = false
      /\ inputSuffix "foo?x=1?y=2" = "?x=1?y=2"
      /\ Href.resolveInternalHref Demo.index Demo.dirname Demo.page "foo?x=1?y=2"
         = "/docs/Infra/guides/foo?x=1"
      /\ JS.endsWith "/docs/Infra/guides/foo?x=1" "?x=1?y=2" = false).
Proof. vm_compute. repeat split. Qed.

Lemma demo_urls_absolute (candidate dir : string) (language : option string)
    (target : PageData) :
  Demo.index candidate dir language = Some target ->
  NotRelative (url target).
Proof.
  unfold Demo.index.
  destruct (String.eqb dir "Infra/guides"); [|discriminate].
  destruct (String.eqb candidate "../setup.mdx");
    [intros [= <-]; left; now exists "docs/Infra/setup"|].
  destruct (String.eqb candidate "./foo"); [|discriminate].
  intros [= <-]. left. now exists "docs/Infra/guides/foo".
Defined.

Lemma resolveInternalHref_idempotent_witness :
  (forall candidate dir language target,
      Demo.index candidate dir language = Some target ->
      NotRelative (url target))
  /\ Href.resolveInternalHref Demo.index Demo.dirname Demo.page
       (Href.resolveInternalHref Demo.index Demo.dirname Demo.page
          "../setup.md#install")
     = Href.resolveInternalHref Demo.index Demo.dirname Demo.page
         "../setup.md#install".
Proof.
  split; [exact demo_urls_absolute|].
  apply (resolveInternalHref_idempotent Demo.index Demo.dirname Demo.page
           demo_urls_absolute).
Defined.

(** C4 fails as stated for an index whose urls are relative: [a]
    resolves to [b], and [b] resolves to [c]. *)
Lemma not_idempotent_on_relative_urls :
  Href.isNotRelative "a" = false
  /\ Href.resolveInternalHref Demo.relativeIndex Demo.dirname Demo.page "a" = "b"
  /\ Href.resolveInternalHref Demo.relativeIndex Demo.dirname Demo.page
       (Href.resolveInternalHref Demo.relativeIndex Demo.dirname Demo.page "a")
     = "c"
  /\ Href.resolveInternalHref Demo.relativeIndex Demo.dirname Demo.page
       (Href.resolveInternalHref Demo.relativeIndex Demo.dirname Demo.page "a")
     <> Href.resolveInternalHref Demo.relativeIndex Demo.dirname Demo.page "a".
Proof. vm_compute. repeat split. discriminate. Qed.

(** The example of the specification. *)
Example resolve_setup_example :
  Href.resolveInternalHref Demo.index Demo.dirname Demo.page "../setup.md#install"
  = "/docs/Infra/setup#install".
Proof. reflexivity. Qed.

End Resolution.

(** ** Route classifier *)

Module ClassifierFacts.
Import StringFacts RegexFacts Spec ApiRules.

Lemma includes_iff (arr : list string) (x : string) :
  JS.includes arr x = true <-> In x arr.
Proof.
  unfold JS.includes. rewrite existsb_exists. split.
  - intros [y [Hy E]]. apply String.eqb_eq in E. now subst.
  - intros H. exists x. split; [exact H | apply String.eqb_refl].
Qed.

(** [/^(w1|w2|...)/] *)
Lemma test_prefix_iff (ws : list string) (s : string) :
  Regex.test (Regex.mkRegexp true (Regex.oneOf ws) false) s = true
  <-> exists w, In w ws /\ HasPrefix w s.
Proof.
  rewrite test_iff. simpl. split.
  - intros [a [m [b [-> [Hm [Ha _]]]]]]. rewrite Ha by reflexivity.
    apply lang_oneOf_iff in Hm. exists m. split; [exact Hm | now exists b].
  - intros [w [Hw [rest ->]]]. exists "", w, rest.
    repeat split; [now apply lang_oneOf_iff | discriminate].
Qed.

(** [/u(w1|w2|...)$/] *)
Lemma test_suffix_iff (u : string) (ws : list string) (s : string) :
  Regex.test
    (Regex.mkRegexp false (Regex.Seq (Regex.lit u) (Regex.oneOf ws)) true) s
  = true
  <-> exists w, In w ws /\ HasSuffix (u ++ w) s.
Proof.
  rewrite test_iff. simpl. split.
  - intros [a [m [b [-> [Hm [_ Hb]]]]]]. rewrite Hb by reflexivity.
    apply lang_seq_inv in Hm. destruct Hm as [s1 [s2 [-> [H1 H2]]]].
    apply lang_lit_iff in H1. apply lang_oneOf_iff in H2. subst s1.
    exists s2. split; [exact H2|]. exists a. now rewrite append_nil_r.
  - intros [w [Hw [stem ->]]]. exists stem, (u ++ w), "".
    rewrite append_nil_r. repeat split; [|discriminate].
    constructor; [now apply lang_lit_iff | now apply lang_oneOf_iff].
Qed.

(** [/body/], with no anchor *)
Lemma test_anywhere_iff (r : Regex.re) (s : string) :
  Regex.test (Regex.mkRegexp false r false) s = true
  <-> exists a m b, s = a ++ m ++ b /\ Regex.lang r m.
Proof.
  rewrite test_iff. simpl. split.
  - intros [a [m [b [E [Hm _]]]]]. now exists a, m, b.
  - intros [a [m [b [E Hm]]]]. exists a, m, b. repeat split; try assumption;
      discriminate.
Qed.

Lemma test_lit_iff (w s : string) :
  Regex.test (Regex.mkRegexp false (Regex.lit w) false) s = true
  <-> Contains w s.
Proof.
  rewrite test_anywhere_iff. unfold Contains. split.
  - intros [a [m [b [-> Hm]]]]. apply lang_lit_iff in Hm. subst. now exists a, b.
  - intros [a [b ->]]. exists a, w, b. split; [reflexivity | now apply lang_lit_iff].
Qed.

Lemma test_lit2_iff (w1 w2 s : string) :
  Regex.test
    (Regex.mkRegexp false (Regex.Alt (Regex.lit w1) (Regex.lit w2)) false) s
  = true
  <-> Contains w1 s \/ Contains w2 s.
Proof.
  rewrite test_anywhere_iff. unfold Contains. split.
  - intros [a [m [b [-> Hm]]]]. apply lang_alt_inv in Hm.
    destruct Hm as [Hm|Hm]; apply lang_lit_iff in Hm; subst;
      [left | right]; now exists a, b.
  - intros [[a [b ->]]|[a [b ->]]].
    + exists a, w1, b. split; [reflexivity|]. apply Regex.LAltL. now apply lang_lit_iff.
    + exists a, w2, b. split; [reflexivity|]. apply Regex.LAltR. now apply lang_lit_iff.
Qed.

Lemma httpVerbPrefixed_iff (segment : string) :
  JS.startsWith segment "get-" || JS.startsWith segment "post-"
  || JS.startsWith segment "patch-" || JS.startsWith segment "delete-"
  || JS.startsWith segment "put-" = true
  <-> HttpVerbPrefixed segment.
Proof.
  rewrite !orb_true_iff, !startsWith_iff. unfold HttpVerbPrefixed, httpVerbs.
  split.
  - intros [[[[H|H]|H]|H]|H];
      [exists "get" | exists "post" | exists "patch" | exists "delete" | exists "put"];
      (split; [simpl; tauto | exact H]).
  - intros [verb [Hin H]]. simpl in Hin.
    destruct Hin as [<-|[<-|[<-|[<-|[<-|[]]]]]]; tauto.
Qed.

Lemma marker_iff (segment : string) :
  Regex.test Classifier.authMarker segment
  || Regex.test Classifier.knowledgePanel segment = true
  <-> HasMarker segment.
Proof.
  unfold Classifier.authMarker, Classifier.knowledgePanel, HasMarker.
  rewrite orb_true_iff, test_lit2_iff, test_lit_iff. tauto.
Qed.

(** The callback of [some], rule by rule. *)
Lemma isApiSegment_iff (segment : string) :
  Classifier.isApiSegment segment = true
  <-> ListedSegment segment \/ ActionVerbSuffixed segment.
Proof.
  unfold Classifier.isApiSegment, ListedSegment.
  rewrite <- httpVerbPrefixed_iff, <- marker_iff.
  unfold HttpVerbSuffixed, ActionVerbPrefixed, ActionVerbSuffixed.
  rewrite <- (test_suffix_iff "_" httpVerbs segment).
  rewrite <- (test_prefix_iff actionVerbs segment).
  rewrite <- (test_suffix_iff "_" trailingActionVerbs segment).
  change (Regex.mkRegexp false (Regex.Seq (Regex.lit "_") (Regex.oneOf httpVerbs)) true)
    with Classifier.httpVerbSuffix.
  change (Regex.mkRegexp true (Regex.oneOf actionVerbs) false)
    with Classifier.actionPrefix.
  change (Regex.mkRegexp false
            (Regex.Seq (Regex.lit "_") (Regex.oneOf trailingActionVerbs)) true)
    with Classifier.actionSuffix.
  destruct (JS.startsWith segment "get-"), (JS.startsWith segment "post-"),
    (JS.startsWith segment "patch-"), (JS.startsWith segment "delete-"),
    (JS.startsWith segment "put-"), (Regex.test Classifier.httpVerbSuffix segment),
    (Regex.test Classifier.actionPrefix segment),
    (Regex.test Classifier.authMarker segment),
    (Regex.test Classifier.knowledgePanel segment),
    (Regex.test Classifier.actionSuffix segment); simpl; intuition congruence.
Qed.

Lemma isKnownApiPath_iff (route : list string) :
  Classifier.isKnownApiPath route = true <-> HasNamespacePair route.
Proof.
  unfold Classifier.isKnownApiPath, HasNamespacePair.
  rewrite !orb_true_iff, !andb_true_iff, !orb_true_iff, !includes_iff. tauto.
Qed.

Lemma isApiPage_iff (route : list string) :
  Classifier.isApiPage (Some route) = true
  <-> (exists segment,
          In segment route
          /\ (ListedSegment segment \/ ActionVerbSuffixed segment))
      \/ HasNamespacePair route.
Proof.
  unfold Classifier.isApiPage, JS.some.
  rewrite orb_true_iff, existsb_exists, isKnownApiPath_iff.
  split; intros [[segment [Hin H]]|H]; try (now right);
    left; exists segment; (split; [exact Hin | now apply isApiSegment_iff]).
Qed.

(** C6, as amended. A route is api-reference exactly when some segment
    is HTTP-verb-prefixed or HTTP-verb-suffixed, or starts with an
    action verb, or ends in an underscore and one of the action verbs
    create, update, delete, retrieve, list, destroy, partial_update,
    stats, or contains an auth or knowledge-panel marker, or when the
    route contains one of the fixed namespace pairs in any order; the
    route [Open-prices/prices/get-list] is api-reference and the root
    route without a slug is not. *)
Theorem isApiPage_rules :
  (forall route,
      Classifier.isApiPage (Some route) = true
      <-> (exists segment,
              In segment route
              /\ (HttpVerbPrefixed segment \/ HttpVerbSuffixed segment
                  \/ ActionVerbPrefixed segment \/ ActionVerbSuffixed segment
                  \/ HasMarker segment))
          \/ HasNamespacePair route)
  /\ Classifier.isApiPage (Some ["Open-prices"; "prices"; "get-list"]) = true
  /\ Classifier.isApiPage None = false.
Proof.
  split; [|split; reflexivity].
  intros route. rewrite isApiPage_iff. unfold ListedSegment.
  split; intros [[segment [Hin H]]|H]; try (now right);
    left; exists segment; (split; [exact Hin | tauto]).
Qed.

(** C6 fails as stated: the segment [prices_create] meets none of the
    listed rules, and the route is api-reference all the same; nor does
    every listed action verb count as a suffix, since [image_predict]
    is not api-reference. *)
Lemma action_suffix_not_listed :
  Classifier.isApiPage (Some ["prices_create"]) = true
  /\ Classifier.isApiPage (Some ["image_predict"]) = false
  /\ ~ ListedRoute ["prices_create"].
Proof.
  split; [reflexivity|]. split; [reflexivity|].
  intros [[segment [[<-|[]] H]]|H].
  - assert (E : Classifier.isApiSegment "prices_create" = true
              -> Regex.test Classifier.actionSuffix "prices_create" = true)
      by reflexivity.
    unfold ListedSegment in H.
    rewrite <- httpVerbPrefixed_iff, <- marker_iff in H.
    unfold HttpVerbSuffixed, ActionVerbPrefixed in H.
    rewrite <- (test_suffix_iff "_" httpVerbs) in H.
    rewrite <- (test_prefix_iff actionVerbs) in H.
    vm_compute in H. intuition discriminate.
  - apply isKnownApiPath_iff in H. discriminate.
Qed.

End ClassifierFacts.

(** ** Raw-source lookup *)

Module SourceFacts.
Import StringFacts Spec.

Section WithFiles.

Variable cwd : string.
Variable join : list string -> string.
Variable fileContent : string -> option string.
Variable sourceGetPage : option (list string) -> option PageData.
Variable ReportPage : Type.
Variable reportsGetPage : list string -> option ReportPage.

Local Abbreviation direct route := (join [cwd; "content/docs"; route ++ ".mdx"]).
Local Abbreviation nested route := (join [cwd; "content/docs"; route; "index.mdx"]).
Local Abbreviation rootIndex := (join [cwd; "content/docs"; "index.mdx"]).
Local Abbreviation possiblePaths := (Source.possiblePaths cwd join).
Local Abbreviation readFirst := (Source.readFirst fileContent).
Local Abbreviation Page :=
  (Source.Page cwd join fileContent sourceGetPage ReportPage reportsGetPage).

Lemma joined_truthy (a b : string) (rest : list string) :
  JS.truthy (JS.join "/" (a :: b :: rest)) = true.
Proof. unfold JS.join. simpl. now destruct a. Qed.

(** C5. The candidates of the regular docs lookup, in order: the direct
    file and the directory index of the route, then for the marker
    inserted after the first segment and, when the route has two
    segments or more, after the second segment, the direct file and
    the directory index of the variant; the root route, which the page
    names [index], gets the root index as its last candidate. *)
Theorem possiblePaths_order :
  possiblePaths None = [direct "index"; nested "index"; rootIndex]
  /\ possiblePaths (Some []) = [direct "index"; nested "index"; rootIndex]
  /\ (forall a,
         possiblePaths (Some [a])
         = [direct (if JS.truthy a then a else "index");
            nested (if JS.truthy a then a else "index");
            direct (JS.join "/" (withMarker 1 [a]));
            nested (JS.join "/" (withMarker 1 [a]))])
  /\ (forall a b rest,
         possiblePaths (Some (a :: b :: rest))
         = [direct (JS.join "/" (a :: b :: rest));
            nested (JS.join "/" (a :: b :: rest));
            direct (JS.join "/" (withMarker 1 (a :: b :: rest)));
            nested (JS.join "/" (withMarker 1 (a :: b :: rest)));
            direct (JS.join "/" (withMarker 2 (a :: b :: rest)));
            nested (JS.join "/" (withMarker 2 (a :: b :: rest)))])
  /\ last (possiblePaths None) "" = rootIndex
  /\ last (possiblePaths (Some [])) "" = rootIndex.
Proof.
  repeat split; try reflexivity.
  intros a b rest.
  unfold Source.possiblePaths, Source.generatePaths, Source.slugPath.
  rewrite joined_truthy. reflexivity.
Qed.

(** The loop probes in order and never throws. *)
Lemma readFirst_probed (candidates : list string) (log : list string) :
  exists content probes,
    readFirst candidates "" log = (IO.Ok content, (log ++ probes)%list)
    /\ Probed fileContent candidates probes content.
Proof.
  revert log. induction candidates as [|p rest IH]; intros log.
  - exists "", []. split.
    + simpl. unfold IO.ret. now rewrite app_nil_r.
    + constructor. intros p [].
  - simpl. unfold IO.tryCatch, Source.readFile.
    destruct (fileContent p) as [c|] eqn:E.
    + exists c, [p]. split; [reflexivity|].
      apply (ProbedHit fileContent [] p rest c); [intros q []|exact E].
    + destruct (IH (log ++ [p])%list) as [content [probes [Hrun Hp]]].
      exists content, (p :: probes). split.
      * rewrite Hrun. now rewrite <- app_assoc.
      * inversion Hp; subst.
        -- constructor. intros q [<-|Hq]; [exact E | auto].
        -- apply (ProbedHit fileContent (p :: skipped) hit rest0 content);
             [|assumption].
           intros q [<-|Hq]; [exact E | auto].
Qed.

(** C7. On a route that is no report page, an API page skips the
    lookup: nothing is read, and the raw markdown of the page the docs
    source knows stays empty; any other page of the docs source probes
    its candidate paths in order. *)
Theorem api_pages_skip_lookup (slug : option (list string)) :
  Classifier.isReportPage slug = false ->
  (Classifier.isApiPage slug = true ->
   snd (IO.run (Page slug)) = []
   /\ forall page,
        sourceGetPage slug = Some page ->
        IO.run (Page slug) = (IO.Ok (Source.DocsPage page ""), []))
  /\ (Classifier.isApiPage slug = false ->
      forall page,
        sourceGetPage slug = Some page ->
        exists content probes,
          IO.run (Page slug) = (IO.Ok (Source.DocsPage page content), probes)
          /\ Probed fileContent (possiblePaths slug) probes content).
Proof.
  intros Hreport.
  assert (E : Page slug
              = Source.renderDocs cwd join fileContent sourceGetPage ReportPage slug).
  { unfold Source.Page. destruct slug; [now rewrite Hreport | reflexivity]. }
  rewrite E. unfold Source.renderDocs, IO.run, IO.bind. split.
  - intros ->. split.
    + now destruct (sourceGetPage slug).
    + now intros page ->.
  - intros -> page ->. simpl.
    destruct (readFirst_probed (possiblePaths slug) []) as [content [probes [Hrun Hp]]].
    exists content, probes. rewrite Hrun. now split.
Qed.

(** C10. A report route [Infra/reports/...] of three segments or more,
    whose report exists, has exactly two candidates, the direct file
    and the directory index of the whole route; they are probed in
    that order, and when neither can be read the raw markdown is empty
    and the report is rendered all the same. *)
Theorem report_pages_probe_two_paths
    (third : string) (rest : list string) (reportPage : ReportPage) :
  reportsGetPage (third :: rest) = Some reportPage ->
  exists content probes,
    IO.run (Page (Some ("Infra" :: "reports" :: third :: rest)))
    = (IO.Ok (Source.ReportBlogRenderer reportPage content), probes)
    /\ match fileContent (direct (JS.join "/" ("Infra" :: "reports" :: third :: rest))),
             fileContent (nested (JS.join "/" ("Infra" :: "reports" :: third :: rest)))
       with
       | Some found, _ =>
           content = found
           /\ probes = [direct (JS.join "/" ("Infra" :: "reports" :: third :: rest))]
       | None, Some found =>
           content = found
           /\ probes = [direct (JS.join "/" ("Infra" :: "reports" :: third :: rest));
                        nested (JS.join "/" ("Infra" :: "reports" :: third :: rest))]
       | None, None =>
           content = ""
           /\ probes = [direct (JS.join "/" ("Infra" :: "reports" :: third :: rest));
                        nested (JS.join "/" ("Infra" :: "reports" :: third :: rest))]
       end.
Proof.
  intros Hreport.
  unfold Source.Page, Source.renderReport, IO.run, IO.bind.
  change (Classifier.isReportPage (Some ("Infra" :: "reports" :: third :: rest)))
    with true.
  cbv iota. change (JS.sliceFrom 2 ("Infra" :: "reports" :: third :: rest))
    with (third :: rest).
  rewrite Hreport.
  unfold Source.reportPaths, Source.readFirst, IO.tryCatch, Source.readFile, IO.ret.
  set (p1 := direct (JS.join "/" ("Infra" :: "reports" :: third :: rest))).
  set (p2 := nested (JS.join "/" ("Infra" :: "reports" :: third :: rest))).
  destruct (fileContent p1) as [c1|]; [now exists c1, [p1]|].
  destruct (fileContent p2) as [c2|]; [now exists c2, [p1; p2]|].
  now exists "", [p1; p2].
Qed.

End WithFiles.

Lemma api_pages_skip_lookup_witness :
  IO.run (Source.Page Demo.cwd Demo.join Demo.fileContent Demo.getPage
            string Demo.getReport (Some ["Open-prices"; "prices"; "get-list"]))
  = (IO.Ok (Source.DocsPage Demo.page ""), [])
  /\ exists content probes,
       IO.run (Source.Page Demo.cwd Demo.join Demo.fileContent Demo.getPage
                 string Demo.getReport (Some ["guide"; "intro"]))
       = (IO.Ok (Source.DocsPage Demo.page content), probes)
       /\ Probed Demo.fileContent
            (Source.possiblePaths Demo.cwd Demo.join (Some ["guide"; "intro"]))
            probes content.
Proof.
  split.
  - apply (api_pages_skip_lookup Demo.cwd Demo.join Demo.fileContent Demo.getPage
             string Demo.getReport (Some ["Open-prices"; "prices"; "get-list"]));
      reflexivity.
  - apply (api_pages_skip_lookup Demo.cwd Demo.join Demo.fileContent Demo.getPage
             string Demo.getReport (Some ["guide"; "intro"]));
      reflexivity.
Defined.

Lemma report_pages_probe_two_paths_witness :
  exists content probes,
    IO.run (Source.Page Demo.cwd Demo.join Demo.fileContent Demo.getPage
              string Demo.getReport (Some ["Infra"; "reports"; "2024"; "outage"]))
    = (IO.Ok (Source.ReportBlogRenderer "2024/outage" content), probes)
    /\ content = ""
    /\ probes = ["/app/content/docs/Infra/reports/2024/outage.mdx";
                 "/app/content/docs/Infra/reports/2024/outage/index.mdx"].
Proof.
  destruct (report_pages_probe_two_paths Demo.cwd Demo.join Demo.fileContent
              Demo.getPage string Demo.getReport "2024" ["outage"] "2024/outage"
              eq_refl) as [content [probes [Hrun Hcase]]].
  exists content, probes. split; [exact Hrun | exact Hcase].
Defined.

(** A general docs page under the [(docs)] convention: the third
    candidate is the first that can be read. *)
Example guide_intro_lookup :
  IO.run (Source.Page Demo.cwd Demo.join Demo.fileContent Demo.getPage
            string Demo.getReport (Some ["guide"; "intro"]))
  = (IO.Ok (Source.DocsPage Demo.page "# Intro"),
     ["/app/content/docs/guide/intro.mdx";
      "/app/content/docs/guide/intro/index.mdx";
      "/app/content/docs/guide/(docs)/intro.mdx"]).
Proof. reflexivity. Qed.

End SourceFacts.

(** ** Static parameters *)

Module ParamsFacts.
Import Params.

Lemma valid_some_schema (paths : list param) :
  (forall p, In p paths -> exists segments, slug p = SlugArray segments) ->
  filter isValidParam (map Some paths) = map Some paths.
Proof.
  induction paths as [|p rest IH]; intros H; simpl; [reflexivity|].
  destruct (H p (or_introl eq_refl)) as [segments E]. rewrite E.
  f_equal. apply IH. intros q Hq. apply H. now right.
Qed.

Lemma schema_paths_are_arrays (file : specFile) (p : param) :
  In p (getSchemaPaths file) -> exists segments, slug p = SlugArray segments.
Proof.
  unfold getSchemaPaths, readSchemaPaths.
  assert (Hfallback : In p fallbackPaths -> exists segments, slug p = SlugArray segments).
  { unfold fallbackPaths. simpl. intros H.
    repeat (destruct H as [<-|H]; [eexists; reflexivity|]). destruct H. }
  destruct file as [| |apiSpec]; try exact Hfallback.
  destruct (getProp apiSpec "components") as [components|e]; [|exact Hfallback].
  destruct (getPropOptional components "schemas") as [found|e]; [|exact Hfallback].
  intros [<-|H]; [eexists; reflexivity|].
  apply in_map_iff in H. destruct H as [name [<- _]]. eexists; reflexivity.
Qed.

(** Every schema route reaches the final list. *)
Lemma schema_paths_enumerated
    (docsParams : list (option param)) (reportSlugs : list (list string))
    (file : specFile) (p : param) :
  In p (getSchemaPaths file) ->
  In (Some p) (generateStaticParams docsParams reportSlugs file).
Proof.
  intros H. unfold generateStaticParams. apply filter_In. split.
  - apply in_or_app. right. apply in_or_app. right. now apply in_map.
  - destruct (schema_paths_are_arrays file p H) as [segments E].
    simpl. now rewrite E.
Qed.

Lemma enumerated_at_least
    (docsParams : list (option param)) (reportSlugs : list (list string))
    (file : specFile) :
  List.length (getSchemaPaths file)
  <= List.length (generateStaticParams docsParams reportSlugs file).
Proof.
  unfold generateStaticParams. rewrite !filter_app, !length_app.
  rewrite (valid_some_schema (getSchemaPaths file))
    by apply schema_paths_are_arrays.
  rewrite length_map. lia.
Qed.

Lemma index_first (file : specFile) :
  In (mkParam (SlugArray schemasIndex) (Some "en")) (getSchemaPaths file).
Proof.
  unfold getSchemaPaths, readSchemaPaths.
  destruct file as [| |apiSpec]; try (now left).
  destruct (getProp apiSpec "components") as [components|e]; [|now left].
  destruct (getPropOptional components "schemas") as [found|e]; now left.
Qed.

(** C8. When [ref/api.yaml] cannot be read or cannot be parsed, the
    failure is caught inside [getSchemaPaths], which returns the
    hardcoded list; the enumeration returns a list of at least 17
    entries that holds every fallback route, the bare schemas index
    among them. *)
Theorem fallback_on_failure
    (docsParams : list (option param)) (reportSlugs : list (list string))
    (file : specFile) :
  file = Unreadable \/ file = Unparseable ->
  (exists e, readSchemaPaths file = IO.Throw e)
  /\ getSchemaPaths file = fallbackPaths
  /\ List.length fallbackPaths = 17
  /\ 17 <= List.length (generateStaticParams docsParams reportSlugs file)
  /\ In (Some (mkParam (SlugArray ["Product-Opener"; "api"; "schemas"]) (Some "en")))
        (generateStaticParams docsParams reportSlugs file)
  /\ (forall p, In p fallbackPaths ->
                In (Some p) (generateStaticParams docsParams reportSlugs file)).
Proof.
  intros Hfile.
  assert (E : getSchemaPaths file = fallbackPaths)
    by (destruct Hfile as [->| ->]; reflexivity).
  split; [destruct Hfile as [->| ->]; eexists; reflexivity|].
  split; [exact E|]. split; [reflexivity|]. split; [|split].
  - change 17 with (List.length fallbackPaths). rewrite <- E.
    apply enumerated_at_least.
  - apply schema_paths_enumerated. apply index_first.
  - intros p Hp. apply schema_paths_enumerated. now rewrite E.
Qed.

Lemma fallback_on_failure_witness :
  17 <= List.length (generateStaticParams [None] [["2024"; "outage"]] Unparseable)
  /\ In (Some (mkParam (SlugArray ["Product-Opener"; "api"; "schemas"]) (Some "en")))
        (generateStaticParams [None] [["2024"; "outage"]] Unparseable).
Proof.
  destruct (fallback_on_failure [None] [["2024"; "outage"]] Unparseable
              (or_intror eq_refl)) as [_ [_ [_ [Hlen [Hin _]]]]].
  split; [exact Hlen | exact Hin].
Defined.

(** C9 fails as stated: a document that parses and defines the single
    schema [Foo] yields two schema routes, and [product_base] is not
    one of them. *)
Lemma parsed_document_replaces_fallback :
  generateStaticParams [] [] (Parsed Demo.apiSpec)
  = [Some (mkParam (SlugArray ["Product-Opener"; "api"; "schemas"]) (Some "en"));
     Some (schemaParam "foo")]
  /\ In (schemaParam "product_base") fallbackPaths
  /\ ~ In (Some (schemaParam "product_base"))
          (generateStaticParams [] [] (Parsed Demo.apiSpec)).
Proof.
  split; [reflexivity|]. split; [right; now left|].
  intros [H|[H|[]]]; discriminate.
Qed.

(** C9, as amended. Whatever the content and the read outcome of the
    specification document, the enumeration holds the bare schemas
    index; the 17 fallback routes are returned when reading or parsing
    throws, or the document is empty; a document that is a mapping
    gives the index followed by one route per key of its
    [components.schemas] mapping, lower-cased with dashes turned into
    underscores. *)
Theorem schema_routes_by_outcome
    (docsParams : list (option param)) (reportSlugs : list (list string)) :
  (forall file,
      In (Some (mkParam (SlugArray ["Product-Opener"; "api"; "schemas"]) (Some "en")))
         (generateStaticParams docsParams reportSlugs file))
  /\ (forall file,
         file = Unreadable \/ file = Unparseable \/ file = Parsed VNull ->
         getSchemaPaths file = fallbackPaths
         /\ forall p, In p fallbackPaths ->
                      In (Some p) (generateStaticParams docsParams reportSlugs file))
  /\ (forall top components schemas,
         lookupField "components" top = VObject components ->
         lookupField "schemas" components = VObject schemas ->
         getSchemaPaths (Parsed (VObject top))
         = mkParam (SlugArray ["Product-Opener"; "api"; "schemas"]) (Some "en")
           :: map (fun name =>
                     schemaParam (JS.dashesToUnderscores (JS.toLowerCase name)))
                  (map fst schemas)).
Proof.
  split; [|split].
  - intros file. apply schema_paths_enumerated. apply index_first.
  - intros file Hfile.
    assert (E : getSchemaPaths file = fallbackPaths)
      by (destruct Hfile as [->|[->| ->]]; reflexivity).
    split; [exact E|].
    intros p Hp. apply schema_paths_enumerated. now rewrite E.
  - intros top components schemas Hc Hs.
    unfold getSchemaPaths, readSchemaPaths, getProp, getPropOptional.
    rewrite Hc. simpl. now rewrite Hs.
Qed.

Lemma schema_routes_by_outcome_witness :
  getSchemaPaths (Parsed Demo.apiSpec)
  = [mkParam (SlugArray ["Product-Opener"; "api"; "schemas"]) (Some "en");
     schemaParam "foo"].
Proof.
  apply (proj2 (proj2 (schema_routes_by_outcome [] []))
           _ [("schemas", VObject [("Foo", VObject [])])] [("Foo", VObject [])]);
    reflexivity.
Defined.

End ParamsFacts.

(** ** More on the href candidates *)

Module CandidateFacts.
Import StringFacts Spec Rebuilt.

(** The candidate list by the shape of the path. *)
Lemma candidates_cases (path : string) :
  (exists stem, path = stem ++ ".md"
                /\ Href.buildHrefCandidates path = [path; stem ++ ".mdx"])
  \/ (exists stem, path = stem ++ "/"
                   /\ Href.buildHrefCandidates path
                      = [stem ++ ".mdx"; (path ++ "index") ++ ".mdx"])
  \/ (~ HasSuffix "/" path /\ Href.buildHrefCandidates path = [path]).
Proof.
  unfold Href.buildHrefCandidates.
  destruct (JS.endsWith path ".md") eqn:Emd.
  - left. apply endsWith_iff in Emd. destruct Emd as [stem ->]. exists stem.
    pose proof (sliceEnd_append stem ".md") as E. cbn [String.length] in E.
    now rewrite E.
  - destruct (JS.endsWith path ".mdx") eqn:Emdx.
    + right. right. split; [|reflexivity].
      apply endsWith_iff in Emdx. destruct Emdx as [stem ->].
      intros [t H]. revert H. apply not_eq_sym, HrefFacts.slash_not_mdx.
    + destruct (JS.endsWith path "/") eqn:Eslash.
      * right. left. apply endsWith_iff in Eslash. destruct Eslash as [stem ->].
        exists stem. split; [reflexivity|].
        pose proof (sliceEnd_append stem "/") as E. cbn [String.length] in E.
        rewrite E. now rewrite (append_assoc (stem ++ "/") "index" ".mdx").
      * right. right. split; [|reflexivity].
        intros H. apply endsWith_iff in H. congruence.
Qed.

(** X1. The candidate list holds one or two hrefs; each is the path
    itself or ends in [.mdx]; and the path itself comes first unless it
    is a directory link. *)
Theorem candidates_bounds (path : string) :
  (1 <= List.length (Href.buildHrefCandidates path)
   /\ List.length (Href.buildHrefCandidates path) <= 2)
  /\ (forall candidate,
         In candidate (Href.buildHrefCandidates path) ->
         candidate = path \/ HasSuffix ".mdx" candidate)
  /\ (~ HasSuffix "/" path -> hd "" (Href.buildHrefCandidates path) = path).
Proof.
  destruct (candidates_cases path)
    as [[stem [E ->]]|[[stem [E ->]]|[Hno ->]]]; simpl.
  - split; [lia|]. split; [|reflexivity].
    intros c [<-|[<-|[]]]; [now left | right; now exists stem].
  - split; [lia|]. split.
    + intros c [<-|[<-|[]]]; right; [now exists stem | now exists (path ++ "index")].
    + intros Hno. destruct Hno. now exists stem.
  - split; [lia|]. split; [|reflexivity]. intros c [<-|[]]. now left.
Qed.

(** X2. A candidate that is not the path itself is in canonical form:
    building candidates from it gives it alone. *)
Theorem rewritten_candidate_is_canonical (path candidate : string) :
  In candidate (Href.buildHrefCandidates path) ->
  candidate <> path ->
  Href.buildHrefCandidates candidate = [candidate].
Proof.
  intros Hin Hne.
  destruct (candidates_cases path)
    as [[stem [E Hc]]|[[stem [E Hc]]|[Hno Hc]]]; rewrite Hc in Hin.
  - destruct Hin as [<-|[<-|[]]]; [now destruct Hne|].
    apply HrefFacts.candidates_mdx.
  - destruct Hin as [<-|[<-|[]]]; apply HrefFacts.candidates_mdx.
  - destruct Hin as [<-|[]]. now destruct Hne.
Qed.

Lemma rewritten_candidate_is_canonical_witness :
  Href.buildHrefCandidates "docs.mdx" = ["docs.mdx"].
Proof.
  apply (rewritten_candidate_is_canonical "docs/" "docs.mdx").
  - now left.
  - discriminate.
Defined.

Lemma explicitBase_cases (rawPath : string) :
  (Explicit rawPath /\ Href.explicitBase rawPath = rawPath)
  \/ (~ Explicit rawPath /\ Href.explicitBase rawPath = "./" ++ rawPath).
Proof.
  unfold Explicit, HasPrefix.
  destruct (JS.startsWith rawPath "./") eqn:E1.
  - left. split; [left; now apply startsWith_iff|].
    unfold Href.explicitBase. now rewrite E1.
  - destruct (JS.startsWith rawPath "../") eqn:E2.
    + left. split; [right; now apply startsWith_iff|].
      unfold Href.explicitBase. now rewrite E1, E2.
    + right. split.
      * intros [H|H]; apply startsWith_iff in H; congruence.
      * unfold Href.explicitBase. now rewrite E1, E2.
Qed.

Lemma explicitBase_is_explicit (rawPath : string) :
  Explicit (Href.explicitBase rawPath).
Proof.
  destruct (explicitBase_cases rawPath) as [[H ->]|[_ ->]]; [exact H|].
  left. now exists rawPath.
Qed.

(** X3. The base handed to the candidate builder is explicitly relative;
    a path that already is one is kept, any other gets [./] in front;
    and making a base explicit again changes nothing. *)
Theorem explicitBase_normal (rawPath : string) :
  Explicit (Href.explicitBase rawPath)
  /\ (Explicit rawPath -> Href.explicitBase rawPath = rawPath)
  /\ (~ Explicit rawPath -> Href.explicitBase rawPath = "./" ++ rawPath)
  /\ Href.explicitBase (Href.explicitBase rawPath) = Href.explicitBase rawPath.
Proof.
  split; [apply explicitBase_is_explicit|].
  split; [|split].
  - intros H. destruct (explicitBase_cases rawPath) as [[_ E]|[Hn _]];
      [exact E | now destruct Hn].
  - intros Hn. destruct (explicitBase_cases rawPath) as [[H _]|[_ E]];
      [now destruct Hn | exact E].
  - destruct (explicitBase_cases (Href.explicitBase rawPath)) as [[_ E]|[Hn _]];
      [exact E|]. destruct Hn. apply explicitBase_is_explicit.
Qed.

Lemma explicit_md_to_mdx (stem : string) :
  Explicit (stem ++ ".md") -> Explicit (stem ++ ".mdx").
Proof.
  unfold Explicit, HasPrefix.
  destruct stem as [|a [|b [|c stem]]]; simpl;
    intros [[r H]|[r H]]; inversion H; subst;
    [left | left | right]; eexists; reflexivity.
Qed.

Lemma explicit_slash_to_mdx (stem : string) :
  Explicit (stem ++ "/") -> stem ++ "/" <> "./" -> stem ++ "/" <> "../" ->
  Explicit (stem ++ ".mdx").
Proof.
  unfold Explicit, HasPrefix.
  destruct stem as [|a [|b [|c stem]]]; simpl;
    intros [[r H]|[r H]] H1 H2; inversion H; subst;
    try (now destruct H1); try (now destruct H2);
    [left | left | right]; eexists; reflexivity.
Qed.

(** X4. Every candidate handed to the index is explicitly relative,
    except for the bare directory links: the sibling-file candidate of
    [./] (an href with an empty path) is [..mdx], and that of [../] is
    [...mdx]. *)
Theorem candidates_stay_explicit :
  (forall rawPath candidate,
      Href.explicitBase rawPath <> "./" ->
      Href.explicitBase rawPath <> "../" ->
      In candidate (Href.buildHrefCandidates (Href.explicitBase rawPath)) ->
      Explicit candidate)
  /\ Href.buildHrefCandidates (Href.explicitBase "") = ["..mdx"; "./index.mdx"]
  /\ Href.buildHrefCandidates (Href.explicitBase "../")
     = ["...mdx"; "../index.mdx"].
Proof.
  split; [|split; reflexivity].
  intros rawPath candidate H1 H2 Hin.
  pose proof (explicitBase_is_explicit rawPath) as Hb.
  destruct (candidates_cases (Href.explicitBase rawPath))
    as [[stem [E Hc]]|[[stem [E Hc]]|[Hno Hc]]]; rewrite Hc in Hin.
  - destruct Hin as [<-|[<-|[]]]; [exact Hb|].
    rewrite E in Hb. now apply explicit_md_to_mdx.
  - rewrite E in *.
    destruct Hin as [<-|[<-|[]]]; [now apply explicit_slash_to_mdx|].
    destruct Hb as [[r Hr]|[r Hr]]; rewrite Hr, !append_assoc;
      [left | right]; eexists; reflexivity.
  - destruct Hin as [<-|[]]. exact Hb.
Qed.

Lemma candidates_stay_explicit_witness :
  Explicit "./guide.md" /\ Explicit "./guide.mdx".
Proof.
  split;
    apply (proj1 candidates_stay_explicit "guide.md");
    try discriminate; simpl; tauto.
Defined.

End CandidateFacts.

(** ** More on the href resolver *)

Module ResolutionMore.
Import StringFacts Spec Rebuilt ResolverFacts.

(** The suffix the resolver rebuilds, whatever the href. *)
Lemma suffix_rebuilt (href : string) :
  (let '(withoutHash, hashPart) := Href.splitHash href in
   let '(_, queryPart) := Href.splitQuery withoutHash in
   Href.suffixOf queryPart hashPart) = rebuiltSuffix href.
Proof.
  unfold Href.splitHash, Href.splitQuery. rewrite !destructure_split.
  unfold Href.suffixOf, rebuiltSuffix, firstPiece, queryOf, fragmentOf.
  rewrite !truthy_marked.
  destruct (after "?" (before "#" href)), (after "#" href); reflexivity.
Qed.

Section WithIndex.

Variable getPageByHref : string -> string -> option string -> option PageData.
Variable dirname : string -> string.
Variable page : PageData.

Local Abbreviation lookup candidate :=
  (getPageByHref candidate (dirname (path page)) (locale page)).
Local Abbreviation resolveInternalHref :=
  (Href.resolveInternalHref getPageByHref dirname page).

Lemma resolveCandidates_first
    (skipped : list string) (candidate : string) (rest : list string)
    (target : PageData) (suffix href : string) :
  (forall x, In x skipped -> lookup x = None) ->
  lookup candidate = Some target ->
  Href.resolveCandidates getPageByHref dirname page
    (skipped ++ candidate :: rest)%list suffix href
  = url target ++ suffix.
Proof.
  intros Hs Hc. induction skipped as [|x skipped IH]; simpl.
  - now rewrite Hc.
  - rewrite (Hs x) by now left. apply IH. intros y Hy. apply Hs. now right.
Qed.

(** X5. First match wins: when a candidate of a relative href is known
    to the index and every candidate before it is not, the result is
    the url of that page followed by the rebuilt suffix, which holds
    the query up to its next [?] and the fragment up to its next [#],
    an empty one left out. *)
Theorem first_known_candidate_wins
    (href : string) (skipped : list string) (candidate : string)
    (rest : list string) (target : PageData) :
  Href.isNotRelative href = false ->
  Href.buildHrefCandidates (Href.explicitBase (pathOf href))
  = (skipped ++ candidate :: rest)%list ->
  (forall x, In x skipped -> lookup x = None) ->
  lookup candidate = Some target ->
  resolveInternalHref href = url target ++ rebuiltSuffix href.
Proof.
  intros Hrel Hc Hs Ht.
  rewrite (Resolution.resolve_relative getPageByHref dirname page href Hrel).
  rewrite suffix_rebuilt, Hc. now apply resolveCandidates_first.
Qed.

End WithIndex.

Lemma first_known_candidate_wins_witness :
  Href.resolveInternalHref Sample.bothIndex Demo.dirname Demo.page
    "foo.md?tab=2#top"
  = "/docs/literal?tab=2#top".
Proof.
  apply (first_known_candidate_wins Sample.bothIndex Demo.dirname Demo.page
           "foo.md?tab=2#top" [] "./foo.md" ["./foo.mdx"]
           (mkPage "/docs/literal" "literal.md" (Some "en")));
    try reflexivity.
  intros x [].
Defined.

Lemma resolveCandidates_agree
    (index1 index2 : string -> string -> option string -> option PageData)
    (dirname : string -> string) (page : PageData)
    (candidates : list string) (suffix href : string) :
  (forall candidate,
      In candidate candidates ->
      index1 candidate (dirname (path page)) (locale page)
      = index2 candidate (dirname (path page)) (locale page)) ->
  Href.resolveCandidates index1 dirname page candidates suffix href
  = Href.resolveCandidates index2 dirname page candidates suffix href.
Proof.
  induction candidates as [|c rest IH]; intros H; simpl; [reflexivity|].
  rewrite <- (H c) by now left.
  destruct (index1 c (dirname (path page)) (locale page)); [reflexivity|].
  apply IH. intros x Hx. apply H. now right.
Qed.

(** X6. The resolver reads the index only at the candidates of the
    href, for the directory and the locale of the page: two indexes
    that agree there give the same result. *)
Theorem resolver_reads_candidates_only
    (index1 index2 : string -> string -> option string -> option PageData)
    (dirname : string -> string) (page : PageData) (href : string) :
  (forall candidate,
      In candidate (Href.buildHrefCandidates (Href.explicitBase (pathOf href))) ->
      index1 candidate (dirname (path page)) (locale page)
      = index2 candidate (dirname (path page)) (locale page)) ->
  Href.resolveInternalHref index1 dirname page href
  = Href.resolveInternalHref index2 dirname page href.
Proof.
  intros H. destruct (Href.isNotRelative href) eqn:E.
  - unfold Href.resolveInternalHref. now rewrite E.
  - rewrite !(Resolution.resolve_relative _ dirname page href E).
    now apply resolveCandidates_agree.
Qed.

Lemma resolver_reads_candidates_only_witness :
  Href.resolveInternalHref Demo.index Demo.dirname Demo.page "bar/"
  = Href.resolveInternalHref Demo.emptyIndex Demo.dirname Demo.page "bar/".
Proof.
  apply (resolver_reads_candidates_only Demo.index Demo.emptyIndex
           Demo.dirname Demo.page "bar/").
  intros candidate [<-|[<-|[]]]; reflexivity.
Defined.

End ResolutionMore.

(** ** More on the route classifier *)

Module ClassifierMore.
Import Spec ApiRules.

Lemma report_route_shape (slug : option (list string)) :
  Classifier.isReportPage slug = true ->
  exists third rest, slug = Some ("Infra" :: "reports" :: third :: rest).
Proof.
  destruct slug as [[|a [|b [|c rest]]]|]; simpl; try discriminate.
  rewrite andb_true_iff, !String.eqb_eq. intros [-> ->]. now exists c, rest.
Qed.

(** X7. A route is a report page exactly when it has the shape
    [Infra/reports/x/...], with a third segment; [Infra/reports] alone
    and the root route are not. *)
Theorem isReportPage_shape (slug : option (list string)) :
  (Classifier.isReportPage slug = true
   <-> exists third rest, slug = Some ("Infra" :: "reports" :: third :: rest))
  /\ Classifier.isReportPage (Some ["Infra"; "reports"]) = false
  /\ Classifier.isReportPage None = false.
Proof.
  split; [|split; reflexivity]. split.
  - apply report_route_shape.
  - intros [third [rest ->]]. reflexivity.
Qed.

Lemma namespacePair_incl (route route' : list string) :
  incl route route' -> HasNamespacePair route -> HasNamespacePair route'.
Proof.
  unfold HasNamespacePair, incl. intros Hincl H.
  repeat match goal with
         | H : _ /\ _ |- _ => destruct H
         | H : _ \/ _ |- _ => destruct H
         | H : In ?x route |- _ => apply Hincl in H
         end; tauto.
Qed.

Lemma isApiPage_incl (route route' : list string) :
  incl route route' ->
  Classifier.isApiPage (Some route) = true ->
  Classifier.isApiPage (Some route') = true.
Proof.
  intros Hincl H. apply ClassifierFacts.isApiPage_iff in H.
  apply ClassifierFacts.isApiPage_iff.
  destruct H as [[segment [Hin H]]|H].
  - left. exists segment. split; [now apply Hincl | exact H].
  - right. now apply (namespacePair_incl route).
Qed.

(** X8. Whether a route is an API page depends only on which segments
    occur in it: a route that holds every segment of an API route is an
    API route, so neither the order of the segments nor repetitions
    nor added segments can turn an API route into another kind. *)
Theorem isApiPage_by_members (route route' : list string) :
  (incl route route' ->
   Classifier.isApiPage (Some route) = true ->
   Classifier.isApiPage (Some route') = true)
  /\ (incl route route' -> incl route' route ->
      Classifier.isApiPage (Some route) = Classifier.isApiPage (Some route')).
Proof.
  split; [apply isApiPage_incl|].
  intros H1 H2.
  destruct (Classifier.isApiPage (Some route)) eqn:E1,
           (Classifier.isApiPage (Some route')) eqn:E2; try reflexivity.
  - apply (isApiPage_incl route route' H1) in E1. congruence.
  - apply (isApiPage_incl route' route H2) in E2. congruence.
Qed.

Lemma isApiPage_by_members_witness :
  Classifier.isApiPage (Some ["docs"; "v3"; "intro"; "Product-Opener"]) = true.
Proof.
  apply (proj1 (isApiPage_by_members ["Product-Opener"; "v3"]
                  ["docs"; "v3"; "intro"; "Product-Opener"])).
  - intros x [<-|[<-|[]]]; simpl; tauto.
  - reflexivity.
Defined.

End ClassifierMore.

(** ** More on the page component *)

Module PageFacts.
Import StringFacts Spec.

Lemma probed_prefix (fileContent : string -> option string)
    (candidates probes : list string) (content : string) :
  Probed fileContent candidates probes content ->
  exists rest, candidates = (probes ++ rest)%list.
Proof.
  intros H. inversion H; subst.
  - exists []. now rewrite app_nil_r.
  - exists rest. now rewrite <- app_assoc.
Qed.

Section WithFiles.

Variable cwd : string.
Variable join : list string -> string.
Variable fileContent : string -> option string.
Variable sourceGetPage : option (list string) -> option PageData.
Variable ReportPage : Type.
Variable reportsGetPage : list string -> option ReportPage.

Local Abbreviation possiblePaths := (Source.possiblePaths cwd join).
Local Abbreviation reportPaths := (Source.reportPaths cwd join).
Local Abbreviation renderDocs :=
  (Source.renderDocs cwd join fileContent sourceGetPage ReportPage).
Local Abbreviation renderReport :=
  (Source.renderReport cwd join fileContent ReportPage reportsGetPage).
Local Abbreviation Page :=
  (Source.Page cwd join fileContent sourceGetPage ReportPage reportsGetPage).

(** The component takes the report branch on report routes and the
    docs branch on all others. *)
Lemma page_branch (slug : option (list string)) :
  (Classifier.isReportPage slug = false /\ Page slug = renderDocs slug)
  \/ (exists third rest,
         slug = Some ("Infra" :: "reports" :: third :: rest)
         /\ Page slug = renderReport ("Infra" :: "reports" :: third :: rest)).
Proof.
  destruct (Classifier.isReportPage slug) eqn:E.
  - right. apply ClassifierMore.report_route_shape in E.
    destruct E as [third [rest ->]]. now exists third, rest.
  - left. split; [reflexivity|]. unfold Source.Page.
    destruct slug; [now rewrite E | reflexivity].
Qed.

Lemma renderDocs_missing (slug : option (list string)) :
  sourceGetPage slug = None ->
  IO.run (renderDocs slug) = (IO.Throw IO.NotFound, []).
Proof. intros H. unfold Source.renderDocs, IO.run. now rewrite H. Qed.

Lemma renderDocs_found (slug : option (list string)) (page : PageData) :
  sourceGetPage slug = Some page ->
  exists content probes,
    IO.run (renderDocs slug) = (IO.Ok (Source.DocsPage page content), probes)
    /\ exists rest, possiblePaths slug = (probes ++ rest)%list.
Proof.
  intros H. unfold Source.renderDocs, IO.run, IO.bind. rewrite H.
  destruct (Classifier.isApiPage slug); simpl.
  - exists "", []. split; [reflexivity|]. now exists (possiblePaths slug).
  - destruct (SourceFacts.readFirst_probed fileContent (possiblePaths slug) [])
      as [content [probes [Hrun Hp]]].
    exists content, probes. rewrite Hrun. split; [reflexivity|].
    now apply (probed_prefix fileContent _ _ content).
Qed.

Lemma renderReport_missing (third : string) (rest : list string) :
  reportsGetPage (third :: rest) = None ->
  IO.run (renderReport ("Infra" :: "reports" :: third :: rest))
  = (IO.Throw IO.NotFound, []).
Proof.
  intros H. unfold Source.renderReport, IO.run.
  change (JS.sliceFrom 2 ("Infra" :: "reports" :: third :: rest))
    with (third :: rest).
  now rewrite H.
Qed.

Lemma renderReport_found
    (third : string) (rest : list string) (reportPage : ReportPage) :
  reportsGetPage (third :: rest) = Some reportPage ->
  exists content probes,
    IO.run (renderReport ("Infra" :: "reports" :: third :: rest))
    = (IO.Ok (Source.ReportBlogRenderer reportPage content), probes)
    /\ exists more,
         reportPaths ("Infra" :: "reports" :: third :: rest)
         = (probes ++ more)%list.
Proof.
  intros H. unfold Source.renderReport, IO.run, IO.bind.
  change (JS.sliceFrom 2 ("Infra" :: "reports" :: third :: rest))
    with (third :: rest).
  rewrite H.
  destruct (SourceFacts.readFirst_probed fileContent
              (reportPaths ("Infra" :: "reports" :: third :: rest)) [])
    as [content [probes [Hrun Hp]]].
  exists content, probes. rewrite Hrun. split; [reflexivity|].
  now apply (probed_prefix fileContent _ _ content).
Qed.

(** X9. The only error that leaves the component is [notFound()], and
    it is thrown before any file is read: on a report route exactly
    when the reports source does not know the report, on any other
    route exactly when the docs source does not know the page. A file
    that cannot be read never makes the component throw. *)
Theorem page_throws_only_notFound (slug : option (list string)) :
  (forall e log,
      IO.run (Page slug) = (IO.Throw e, log) -> e = IO.NotFound /\ log = [])
  /\ (Classifier.isReportPage slug = false ->
      (sourceGetPage slug = None
       <-> IO.run (Page slug) = (IO.Throw IO.NotFound, [])))
  /\ (forall third rest,
         slug = Some ("Infra" :: "reports" :: third :: rest) ->
         (reportsGetPage (third :: rest) = None
          <-> IO.run (Page slug) = (IO.Throw IO.NotFound, []))).
Proof.
  split; [|split].
  - intros e log.
    destruct (page_branch slug) as [[_ ->]|[third [rest [_ ->]]]].
    + destruct (sourceGetPage slug) as [page|] eqn:E.
      * destruct (renderDocs_found slug page E) as [c [p [-> _]]]. discriminate.
      * rewrite (renderDocs_missing slug E). now intros [= <- <-].
    + destruct (reportsGetPage (third :: rest)) as [rp|] eqn:E.
      * destruct (renderReport_found third rest rp E) as [c [p [-> _]]].
        discriminate.
      * rewrite (renderReport_missing third rest E). now intros [= <- <-].
  - intros Hr. destruct (page_branch slug) as [[_ ->]|[third [rest [-> _]]]];
      [|discriminate].
    split; [apply renderDocs_missing|].
    destruct (sourceGetPage slug) as [page|] eqn:E; [|reflexivity].
    destruct (renderDocs_found slug page E) as [c [p [-> _]]]. discriminate.
  - intros third rest ->. change (Page (Some ("Infra" :: "reports" :: third :: rest)))
      with (renderReport ("Infra" :: "reports" :: third :: rest)).
    split; [apply renderReport_missing|].
    destruct (reportsGetPage (third :: rest)) as [rp|] eqn:E; [|reflexivity].
    destruct (renderReport_found third rest rp E) as [c [p [-> _]]]. discriminate.
Qed.

Lemma possiblePaths_length (slug : option (list string)) :
  3 <= List.length (possiblePaths slug) <= 6.
Proof.
  destruct slug as [[|a [|b rest]]|]; simpl; lia.
Qed.

(** X10. The component reads at most six files on any route and at most
    two on a report route, whatever the file system; the files it
    reads are the first candidates of the route, in their order. *)
Theorem page_reads_bounded (slug : option (list string)) :
  List.length (snd (IO.run (Page slug))) <= 6
  /\ (Classifier.isReportPage slug = true ->
      List.length (snd (IO.run (Page slug))) <= 2)
  /\ exists rest,
       (if Classifier.isReportPage slug
        then match slug with
             | Some segments => reportPaths segments
             | None => []
             end
        else possiblePaths slug)
       = (snd (IO.run (Page slug)) ++ rest)%list.
Proof.
  destruct (page_branch slug) as [[Hr ->]|[third [rest [-> ->]]]].
  - rewrite Hr.
    assert (H : exists rest,
               possiblePaths slug = (snd (IO.run (renderDocs slug)) ++ rest)%list).
    { destruct (sourceGetPage slug) as [page|] eqn:E.
      - destruct (renderDocs_found slug page E) as [c [p [-> [more Hm]]]].
        now exists more.
      - rewrite (renderDocs_missing slug E). now exists (possiblePaths slug). }
    destruct H as [more Hm]. split; [|split; [discriminate | now exists more]].
    pose proof (possiblePaths_length slug) as Hlen.
    rewrite Hm, length_app in Hlen. lia.
  - change (Classifier.isReportPage (Some ("Infra" :: "reports" :: third :: rest)))
      with true. cbv iota.
    assert (H : exists more,
               reportPaths ("Infra" :: "reports" :: third :: rest)
               = (snd (IO.run (renderReport ("Infra" :: "reports" :: third :: rest)))
                  ++ more)%list).
    { destruct (reportsGetPage (third :: rest)) as [rp|] eqn:E.
      - destruct (renderReport_found third rest rp E) as [c [p [-> [more Hm]]]].
        now exists more.
      - rewrite (renderReport_missing third rest E). now eexists. }
    destruct H as [more Hm].
    assert (Hlen : List.length
                     (snd (IO.run (renderReport ("Infra" :: "reports" :: third :: rest))))
                   <= 2).
    { apply (f_equal (@List.length string)) in Hm.
      rewrite length_app in Hm. simpl in Hm. lia. }
    split; [lia|]. split; [intros _; exact Hlen | now exists more].
Qed.

(** X11. Every candidate of the regular docs lookup is a [path.join] of
    the working directory, [content/docs] and further components, the
    last of which ends in [.mdx]; there are between three and six
    candidates. *)
Theorem possiblePaths_under_content_root (slug : option (list string)) :
  (3 <= List.length (possiblePaths slug)
   /\ List.length (possiblePaths slug) <= 6)
  /\ forall candidate,
       In candidate (possiblePaths slug) ->
       exists parts,
         candidate = join (cwd :: "content/docs" :: parts)
         /\ HasSuffix ".mdx" (last parts "").
Proof.
  split; [apply possiblePaths_length|].
  assert (Hd : forall route,
             exists parts,
               join [cwd; "content/docs"; route ++ ".mdx"]
               = join (cwd :: "content/docs" :: parts)
               /\ HasSuffix ".mdx" (last parts "")).
  { intros route. exists [route ++ ".mdx"]. split; [reflexivity | now exists route]. }
  assert (Hn : forall route,
             exists parts,
               join [cwd; "content/docs"; route; "index.mdx"]
               = join (cwd :: "content/docs" :: parts)
               /\ HasSuffix ".mdx" (last parts "")).
  { intros route. exists [route; "index.mdx"]. split; [reflexivity | now exists "index"]. }
  assert (Hroot : exists parts,
             join [cwd; "content/docs"; "index.mdx"]
             = join (cwd :: "content/docs" :: parts)
             /\ HasSuffix ".mdx" (last parts "")).
  { exists ["index.mdx"]. split; [reflexivity | now exists "index"]. }
  intros candidate Hin.
  destruct slug as [[|a [|b rest]]|];
    unfold Source.possiblePaths, Source.generatePaths, JS.push in Hin;
    simpl in Hin;
    repeat (destruct Hin as [<-|Hin]; [solve [apply Hd | apply Hn | apply Hroot]|]);
    destruct Hin.
Qed.

End WithFiles.




End PageFacts.

(** ** Page metadata *)

Module MetadataFacts.

Section WithSources.

Variable cwd : string.
Variable join : list string -> string.
Variable fileContent : string -> option string.
Variable sourceGetPage : option (list string) -> option PageData.
Variable ReportPage : Type.
Variable reportsGetPage : list string -> option ReportPage.
Variable dataTitle : PageData -> string.
Variable dataDescription : PageData -> option string.

Local Abbreviation Page :=
  (Source.Page cwd join fileContent sourceGetPage ReportPage reportsGetPage).
Local Abbreviation generateMetadata :=
  (Metadata.generateMetadata sourceGetPage dataTitle dataDescription).

(** X13. On a route that is no report page the metadata and the
    component stand on the same lookup of the docs source: both throw
    [notFound()] when the page is unknown, and otherwise the metadata
    is the title and the description of the very page the component
    renders; computing the metadata reads no file. *)
Theorem metadata_agrees_with_page (slug : option (list string)) :
  Classifier.isReportPage slug = false ->
  (sourceGetPage slug = None ->
   IO.run (generateMetadata slug) = (IO.Throw IO.NotFound, [])
   /\ IO.run (Page slug) = (IO.Throw IO.NotFound, []))
  /\ (forall page,
         sourceGetPage slug = Some page ->
         IO.run (generateMetadata slug)
         = (IO.Ok (Metadata.mkMetadata (dataTitle page) (dataDescription page)), [])
         /\ exists content probes,
              IO.run (Page slug)
              = (IO.Ok (Source.DocsPage page content), probes)).
Proof.
  intros Hr.
  destruct (PageFacts.page_branch cwd join fileContent sourceGetPage ReportPage
              reportsGetPage slug) as [[_ E]|[third [rest [-> _]]]];
    [|discriminate].
  rewrite E. split.
  - intros H. split.
    + unfold Metadata.generateMetadata, IO.run. now rewrite H.
    + now apply PageFacts.renderDocs_missing.
  - intros page H. split.
    + unfold Metadata.generateMetadata, IO.run. now rewrite H.
    + destruct (PageFacts.renderDocs_found cwd join fileContent sourceGetPage
                  ReportPage slug page H) as [content [probes [Hrun _]]].
      now exists content, probes.
Qed.

(** X14. The metadata of a report route comes from the docs source, not
    from the reports source: a report that the reports source knows
    and the docs source does not is rendered by the component, while
    [generateMetadata] throws [notFound()] for the same route. *)
Theorem report_metadata_from_docs_source
    (third : string) (rest : list string) (reportPage : ReportPage) :
  reportsGetPage (third :: rest) = Some reportPage ->
  sourceGetPage (Some ("Infra" :: "reports" :: third :: rest)) = None ->
  (exists content probes,
      IO.run (Page (Some ("Infra" :: "reports" :: third :: rest)))
      = (IO.Ok (Source.ReportBlogRenderer reportPage content), probes))
  /\ IO.run (generateMetadata (Some ("Infra" :: "reports" :: third :: rest)))
     = (IO.Throw IO.NotFound, []).
Proof.
  intros Hreport Hdocs. split.
  - destruct (PageFacts.renderReport_found cwd join fileContent ReportPage
                reportsGetPage third rest reportPage Hreport)
      as [content [probes [Hrun _]]].
    now exists content, probes.
  - unfold Metadata.generateMetadata, IO.run. now rewrite Hdocs.
Qed.

End WithSources.

Lemma metadata_agrees_with_page_witness :
  IO.run (Metadata.generateMetadata Demo.getPage Sample.dataTitle
            Sample.dataDescription (Some ["guide"; "intro"]))
  = (IO.Ok (Metadata.mkMetadata "/docs/Infra/guides/intro" None), []).
Proof.
  apply (proj2 (metadata_agrees_with_page Demo.cwd Demo.join Demo.fileContent
                  Demo.getPage string Demo.getReport Sample.dataTitle
                  Sample.dataDescription (Some ["guide"; "intro"]) eq_refl)
           Demo.page eq_refl).
Defined.

Lemma report_metadata_from_docs_source_witness :
  IO.run (Metadata.generateMetadata Sample.noPage Sample.dataTitle
            Sample.dataDescription (Some ["Infra"; "reports"; "2024"; "outage"]))
  = (IO.Throw IO.NotFound, []).
Proof.
  apply (report_metadata_from_docs_source Demo.cwd Demo.join Demo.fileContent
           Sample.noPage string Demo.getReport Sample.dataTitle
           Sample.dataDescription "2024" ["outage"] "2024/outage" eq_refl eq_refl).
Defined.

End MetadataFacts.

(** ** More on the static parameters *)

Module ParamsMore.
Import Params Spec Rebuilt.

Lemma reports_valid (reportSlugs : list (list string)) :
  filter isValidParam (reportsParams reportSlugs) = reportsParams reportSlugs.
Proof.
  unfold reportsParams.
  induction reportSlugs as [|r rest IH]; simpl; [reflexivity | now rewrite IH].
Qed.

(** X15. The enumeration is the well-formed entries of the docs source,
    then one route [Infra/reports/...] per report, then the schema
    routes, in that order: no report or schema route is dropped, and
    nothing is merged or removed as a duplicate. *)
Theorem generateStaticParams_layout
    (docsParams : list (option param)) (reportSlugs : list (list string))
    (file : specFile) :
  generateStaticParams docsParams reportSlugs file
  = (filter isValidParam docsParams
     ++ map (fun reportSlug =>
               Some (mkParam (SlugArray ("Infra" :: "reports" :: reportSlug)) None))
            reportSlugs
     ++ map Some (getSchemaPaths file))%list
  /\ List.length (generateStaticParams docsParams reportSlugs file)
     = List.length (filter isValidParam docsParams)
       + List.length reportSlugs + List.length (getSchemaPaths file)
  /\ forall entry,
       In entry (generateStaticParams docsParams reportSlugs file) ->
       exists segments language,
         entry = Some (mkParam (SlugArray segments) language).
Proof.
  assert (E : generateStaticParams docsParams reportSlugs file
              = (filter isValidParam docsParams
                 ++ reportsParams reportSlugs
                 ++ map Some (getSchemaPaths file))%list).
  { unfold generateStaticParams. rewrite !filter_app, reports_valid.
    now rewrite (ParamsFacts.valid_some_schema (getSchemaPaths file))
      by apply ParamsFacts.schema_paths_are_arrays. }
  split; [exact E|]. split.
  - rewrite E, !length_app. unfold reportsParams. rewrite !length_map. lia.
  - intros entry Hin. unfold generateStaticParams in Hin.
    apply filter_In in Hin. destruct Hin as [_ Hv].
    destruct entry as [[[| |segments] language]|]; try discriminate.
    now exists segments, language.
Qed.

(** X16. The hardcoded list is used exactly when the [try] block
    throws, which happens exactly when the file cannot be read, cannot
    be parsed, or parses to [null] or [undefined]; any other document,
    whatever its shape, is taken as it is. *)
Theorem fallback_exactly_on_throw (file : specFile) :
  ((exists e, readSchemaPaths file = IO.Throw e)
   <-> file = Unreadable \/ file = Unparseable
       \/ file = Parsed VNull \/ file = Parsed VUndefined)
  /\ ((exists e, readSchemaPaths file = IO.Throw e) ->
      getSchemaPaths file = fallbackPaths)
  /\ (forall schemaPaths,
         readSchemaPaths file = IO.Ok schemaPaths ->
         getSchemaPaths file = schemaPaths).
Proof.
  split; [|split].
  - split.
    + intros [e H]. destruct file as [| |apiSpec]; [tauto | tauto |].
      destruct apiSpec; try tauto; simpl in H;
        try discriminate.
      unfold readSchemaPaths, getProp in H.
      destruct (lookupField "components" fields); simpl in H; discriminate.
    + intros [->|[->|[->| ->]]]; eexists; reflexivity.
  - intros [e H]. unfold getSchemaPaths. now rewrite H.
  - intros schemaPaths H. unfold getSchemaPaths. now rewrite H.
Qed.

(** X17. A document that is a mapping without a [components] mapping
    (the key is missing, or holds [null] or a scalar) gives the schemas
    index alone: neither an error nor the hardcoded list. The same
    holds when [components] has no [schemas] entry. *)
Theorem document_without_schemas :
  (forall top,
      (forall fields, lookupField "components" top <> VObject fields) ->
      getSchemaPaths (Parsed (VObject top)) = [indexParam])
  /\ (forall top components,
         lookupField "components" top = VObject components ->
         lookupField "schemas" components = VUndefined ->
         getSchemaPaths (Parsed (VObject top)) = [indexParam]).
Proof.
  split.
  - intros top H. unfold getSchemaPaths, readSchemaPaths, getProp.
    destruct (lookupField "components" top) as [| | | | | |fields];
      try reflexivity.
    now destruct (H fields).
  - intros top components Hc Hs.
    unfold getSchemaPaths, readSchemaPaths, getProp, getPropOptional.
    rewrite Hc. simpl. now rewrite Hs.
Qed.

Lemma document_without_schemas_witness :
  getSchemaPaths (Parsed (VObject [("openapi", VString "3.1.0");
                                   ("components", VNull)]))
  = [indexParam].
Proof.
  apply (proj1 document_without_schemas). intros fields. discriminate.
Defined.

(** X18. Whatever the document, the list of schema routes starts with
    the bare schemas index, every entry has the locale [en], and every
    entry but the index is a route [Product-Opener/api/schemas/schemas/name]. *)
Theorem schema_paths_shape (file : specFile) :
  (exists rest, getSchemaPaths file = indexParam :: rest)
  /\ forall p,
       In p (getSchemaPaths file) ->
       lang p = Some "en"
       /\ (p = indexParam
           \/ exists name,
                slug p = SlugArray ["Product-Opener"; "api"; "schemas"; "schemas"; name]).
Proof.
  assert (Hfallback :
            (exists rest, fallbackPaths = indexParam :: rest)
            /\ forall p,
                 In p fallbackPaths ->
                 lang p = Some "en"
                 /\ (p = indexParam
                     \/ exists name,
                          slug p = SlugArray ["Product-Opener"; "api"; "schemas";
                                              "schemas"; name])).
  { split; [eexists; reflexivity|].
    unfold fallbackPaths. simpl. intros p H.
    destruct H as [<-|H]; [split; [reflexivity | now left]|].
    repeat (destruct H as [<-|H];
            [split; [reflexivity | right; eexists; reflexivity]|]).
    destruct H. }
  unfold getSchemaPaths, readSchemaPaths.
  destruct file as [| |apiSpec]; try exact Hfallback.
  destruct (getProp apiSpec "components") as [components|e]; [|exact Hfallback].
  destruct (getPropOptional components "schemas") as [found|e]; [|exact Hfallback].
  split; [eexists; reflexivity|].
  intros p [<-|H]; [split; [reflexivity | now left]|].
  apply in_map_iff in H. destruct H as [name [<- _]].
  split; [reflexivity | right; eexists; reflexivity].
Qed.





End ParamsMore.

(** ** From the enumeration to the page *)

Module EnumerationFacts.
Import Params.

Section WithSources.

Variable cwd : string.
Variable join : list string -> string.
Variable fileContent : string -> option string.
Variable sourceGetPage : option (list string) -> option PageData.
Variable ReportPage : Type.
Variable reportsGetPage : list string -> option ReportPage.
Variable docsParams : list (option param).
Variable reportSlugs : list (list string).
Variable apiYaml : specFile.

Local Abbreviation Page :=
  (Source.Page cwd join fileContent sourceGetPage ReportPage reportsGetPage).

Lemma report_enumerated (reportSlug : list string) :
  In reportSlug reportSlugs ->
  In (Some (mkParam (SlugArray ("Infra" :: "reports" :: reportSlug)) None))
     (generateStaticParams docsParams reportSlugs apiYaml).
Proof.
  intros Hin. unfold generateStaticParams. apply filter_In. split; [|reflexivity].
  apply in_or_app. right. apply in_or_app. left. unfold reportsParams.
  apply in_map_iff. now exists reportSlug.
Qed.

(** X20. The route enumerated for a report leads back to that report:
    for a report of the reports source with a non-empty slug, the
    route [Infra/reports/slug] is enumerated, and the component strips
    the two leading segments and renders exactly that report. A report
    with the empty slug is enumerated as [Infra/reports], which the
    component does not treat as a report: it is looked up in the docs
    source, and not found there it throws [notFound()]. *)
Theorem enumerated_report_is_rendered :
  (forall third rest reportPage,
      In (third :: rest) reportSlugs ->
      reportsGetPage (third :: rest) = Some reportPage ->
      In (Some (mkParam (SlugArray ("Infra" :: "reports" :: third :: rest)) None))
         (generateStaticParams docsParams reportSlugs apiYaml)
      /\ exists content probes,
           IO.run (Page (Some ("Infra" :: "reports" :: third :: rest)))
           = (IO.Ok (Source.ReportBlogRenderer reportPage content), probes))
  /\ (In [] reportSlugs ->
      sourceGetPage (Some ["Infra"; "reports"]) = None ->
      In (Some (mkParam (SlugArray ["Infra"; "reports"]) None))
         (generateStaticParams docsParams reportSlugs apiYaml)
      /\ IO.run (Page (Some ["Infra"; "reports"])) = (IO.Throw IO.NotFound, [])).
Proof.
  split.
  - intros third rest reportPage Hin Hreport. split; [now apply report_enumerated|].
    destruct (PageFacts.renderReport_found cwd join fileContent ReportPage
                reportsGetPage third rest reportPage Hreport)
      as [content [probes [Hrun _]]].
    now exists content, probes.
  - intros Hin Hdocs. split; [now apply (report_enumerated [])|].
    change (Page (Some ["Infra"; "reports"]))
      with (Source.renderDocs cwd join fileContent sourceGetPage ReportPage
              (Some ["Infra"; "reports"])).
    now apply PageFacts.renderDocs_missing.
Qed.

End WithSources.

Lemma enumerated_report_is_rendered_witness :
  In (Some (mkParam (SlugArray ["Infra"; "reports"; "2024"; "outage"]) None))
     (generateStaticParams [] [["2024"; "outage"]] Unreadable)
  /\ exists content probes,
       IO.run (Source.Page Demo.cwd Demo.join Demo.fileContent Demo.getPage
                 string Demo.getReport
                 (Some ["Infra"; "reports"; "2024"; "outage"]))
       = (IO.Ok (Source.ReportBlogRenderer "2024/outage" content), probes).
Proof.
  apply (proj1 (enumerated_report_is_rendered Demo.cwd Demo.join Demo.fileContent
                  Demo.getPage string Demo.getReport [] [["2024"; "outage"]]
                  Unreadable) "2024" ["outage"] "2024/outage").
  - now left.
  - reflexivity.
Defined.

End EnumerationFacts.
